(** * esload: the bulk-indexing job of [load.py]

    A shallow embedding of the document normaliser ([preprocess_document]),
    the bulk payload builder ([prepare_bulk_data]) and the batch loop of
    [load.py], together with the properties of the job that the
    specification states.

    Python objects that the script mutates (dicts) live in an explicit store
    and are passed around by reference, so that the aliasing created by
    [dict.copy] is visible.  Code that can raise runs in a small
    state-and-exception monad. *)

From Stdlib Require Import Ascii String ZArith Lia.
From stdpp Require Import base option list gmap fin_maps strings.

Local Open Scope Z_scope.
Local Open Scope nat_scope.
Local Set Warnings "-register-all".

(** ** Python strings

    A [str] is modelled as a Rocq [string], read as a sequence of code points
    below 256.  The character-level operations work on the list of its
    characters. *)

Module PyStr.

Definition chars := list ascii.

(** [str.isspace] on a single character (code points below 256). *)
Definition is_space (c : ascii) : bool :=
  match N_of_ascii c with
  | 9 | 10 | 11 | 12 | 13 | 28 | 29 | 30 | 31 | 32 | 133 | 160 => true
  | _ => false
  end%N.

Fixpoint lstrip (s : chars) : chars :=
  match s with
  | [] => []
  | c :: s' => if is_space c then lstrip s' else s
  end.

Definition rstrip (s : chars) : chars := rev (lstrip (rev s)).

(** [s.strip()] *)
Definition strip (s : chars) : chars := rstrip (lstrip s).

(** [s.startswith(p)] *)
Fixpoint starts_with (p s : chars) : bool :=
  match p, s with
  | [], _ => true
  | _ :: _, [] => false
  | a :: p', b :: s' => if decide (a = b) then starts_with p' s' else false
  end.

(** [p in s] for two strings: [p] occurs in [s] as a substring. *)
Fixpoint contains (p s : chars) : bool :=
  starts_with p s ||
  match s with
  | [] => false
  | _ :: s' => contains p s'
  end.

(** The scan of [s.replace(old, new)] for a non-empty [old]: occurrences are
    found left to right and do not overlap.  [skip] counts the characters of
    an occurrence that was just replaced and are still to be passed over. *)
Fixpoint replace_go (skip : nat) (old new s : chars) : chars :=
  match s with
  | [] => []
  | c :: s' =>
      match skip with
      | S k => replace_go k old new s'
      | O =>
          if starts_with old s
          then new ++ replace_go (length old - 1) old new s'
          else c :: replace_go 0 old new s'
      end
  end.

(** [s.replace(old, new)]; with an empty [old], Python puts [new] before
    every character and at the end. *)
Definition replace (old new s : chars) : chars :=
  match old with
  | [] => flat_map (fun c => new ++ [c]) s ++ new
  | _ :: _ => replace_go 0 old new s
  end.

Definition of_string : string -> chars := list_ascii_of_string.
Definition to_string : chars -> string := string_of_list_ascii.

End PyStr.

(** ** Python values, the store and the program state *)

(** Exceptions the script can meet.  [DanglingRef] is not a Python exception:
    it marks a reference to an object that the store does not hold, which a
    Python heap never contains. *)
Inductive exn :=
| KeyError (key : string)
| TypeError
| AttributeError
| LibraryError (name : string)
| DanglingRef.

Inductive result (A : Type) :=
| Ok (a : A)
| Raise (e : exn).
Arguments Ok {A} a.
Arguments Raise {A} e.

Definition loc := positive.

(** The values a pickled record is built from.  A dict is an object in the
    store and a value only refers to it; lists are never updated by the
    script and are kept by value. *)
Inductive value :=
| VNone
| VBool (b : bool)
| VInt (z : Z)
| VStr (s : string)
| VList (l : list value)
| VRef (l : loc).

(** A parsed JSON document, as [response.json()] returns it.  Numbers are
    integers, as the status codes of the bulk API are. *)
Inductive json :=
| JNull
| JBool (b : bool)
| JInt (z : Z)
| JStr (s : string)
| JArr (l : list json)
| JObj (o : list (string * json)).

(** What the script prints, one constructor per [print] of the parts modelled
    (the number is the source line). *)
Inductive out_line :=
| PrDateWarning (date_field : string) (date_value : value) (e : exn)      (* 98 *)
| PrIndexedWithErrors (batch_no batches : nat) (success_items : Z)
    (batch_len n_errors : nat)                                              (* 266 *)
| PrErrorDetail (idx : nat) (doc_id error_type reason : json)              (* 278 *)
| PrCausedBy (caused_by : json)                                            (* 280 *)
| PrErrorOther (idx : nat) (doc_id details : json)                         (* 282 *)
| PrMoreErrors (n : nat)                                                   (* 285 *)
| PrErrorSummaryHeader                                                     (* 293 *)
| PrErrorSummary (error_type : json) (count : Z)                           (* 295 *)
| PrIndexed (batch_no batches batch_len : nat)                             (* 299 *)
| PrHttpError (batch_no : nat) (status : Z)                                (* 302 *)
| PrResponseText (text : string)                                           (* 303 *)
| PrBatchException (batch_no : nat) (e : exn)                              (* 305 *)
| PrTraceback (e : exn).                                                   (* 308 *)

(** The state the modelled code reads and writes: the dict objects, the
    console, and the global [success_count]. *)
Record state := State {
  heap : gmap loc (gmap string value);
  stdout : list out_line;
  success_count : Z
}.

Definition set_heap (h : gmap loc (gmap string value)) (st : state) : state :=
  State h (stdout st) (success_count st).

Definition add_stdout (l : out_line) (st : state) : state :=
  State (heap st) (stdout st ++ [l]) (success_count st).

Definition add_success (n : Z) (st : state) : state :=
  State (heap st) (stdout st) (success_count st + n)%Z.

(** ** The monad: state threaded through, exceptions keep the state *)

Definition M (A : Type) : Type := state -> result A * state.

Definition ret {A} (a : A) : M A := fun st => (Ok a, st).

Definition raise {A} (e : exn) : M A := fun st => (Raise e, st).

Definition bind {A B} (m : M A) (k : A -> M B) : M B :=
  fun st =>
    match m st with
    | (Ok a, st') => k a st'
    | (Raise e, st') => (Raise e, st')
    end.

Notation "'let!' x ':=' m 'in' k" := (bind m (fun x => k))
  (at level 10, x pattern, m at level 100, k at level 200).
Notation "m ';;' k" := (bind m (fun _ => k))
  (at level 100, k at level 200, right associativity).

(** [try: body except Exception as e: handler e] *)
Definition try_except {A} (body : M A) (handler : exn -> M A) : M A :=
  fun st =>
    match body st with
    | (Ok a, st') => (Ok a, st')
    | (Raise e, st') => handler e st'
    end.

(** [for x in xs: body x] *)
Fixpoint for_each {A} (xs : list A) (body : A -> M unit) : M unit :=
  match xs with
  | [] => ret tt
  | x :: xs' => body x ;; for_each xs' body
  end.

Definition print (l : out_line) : M unit := fun st => (Ok tt, add_stdout l st).

Definition of_result {A} (r : result A) : M A :=
  match r with
  | Ok a => ret a
  | Raise e => raise e
  end.

(** ** Operations on heap values *)

(** [key in container] for a string [key]. *)
Definition py_contains (key : string) (container : value) : M bool :=
  fun st =>
    match container with
    | VRef l =>
        match heap st !! l with
        | Some d => (Ok (bool_decide (is_Some (d !! key))), st)
        | None => (Raise DanglingRef, st)
        end
    | VStr s => (Ok (PyStr.contains (PyStr.of_string key) (PyStr.of_string s)), st)
    | VList vs =>
        (Ok (existsb (fun v => match v with
                               | VStr s => bool_decide (s = key)
                               | _ => false
                               end) vs), st)
    | VNone | VBool _ | VInt _ => (Raise TypeError, st)
    end.

(** [container[key]] for a string [key]. *)
Definition py_getitem (container : value) (key : string) : M value :=
  fun st =>
    match container with
    | VRef l =>
        match heap st !! l with
        | Some d =>
            match d !! key with
            | Some v => (Ok v, st)
            | None => (Raise (KeyError key), st)
            end
        | None => (Raise DanglingRef, st)
        end
    | _ => (Raise TypeError, st)
    end.

(** [container[key] = v] *)
Definition py_setitem (container : value) (key : string) (v : value) : M unit :=
  fun st =>
    match container with
    | VRef l =>
        match heap st !! l with
        | Some d => (Ok tt, set_heap (<[l := <[key := v]> d]> (heap st)) st)
        | None => (Raise DanglingRef, st)
        end
    | _ => (Raise TypeError, st)
    end.

(** [container.pop(key, None)], result discarded. *)
Definition py_pop (container : value) (key : string) : M unit :=
  fun st =>
    match container with
    | VRef l =>
        match heap st !! l with
        | Some d => (Ok tt, set_heap (<[l := delete key d]> (heap st)) st)
        | None => (Raise DanglingRef, st)
        end
    | VList _ => (Raise TypeError, st)
    | _ => (Raise AttributeError, st)
    end.

(** [container.get(key, default)] *)
Definition py_get (container : value) (key : string) (dflt : value) : M value :=
  fun st =>
    match container with
    | VRef l =>
        match heap st !! l with
        | Some d => (Ok (default dflt (d !! key)), st)
        | None => (Raise DanglingRef, st)
        end
    | _ => (Raise AttributeError, st)
    end.

(** [doc.copy()]: a dict is copied into a new object that holds the same
    values, so a nested dict is shared between the original and the copy. *)
Definition py_copy (doc : value) : M value :=
  fun st =>
    match doc with
    | VRef l =>
        match heap st !! l with
        | Some d =>
            let p := fresh (dom (heap st)) in
            (Ok (VRef p), set_heap (<[p := d]> (heap st)) st)
        | None => (Raise DanglingRef, st)
        end
    | VList vs => (Ok (VList vs), st)
    | _ => (Raise AttributeError, st)
    end.

(** ** [preprocess_document] (lines 59-101) *)

Definition date_fields : list string :=
  ["Tanggal Penetapan"; "Tanggal Pengundangan"; "Tanggal Berlaku"].

Definition id_month_mapping : list (string * string) :=
  [ ("Januari", "January");
    ("Februari", "February");
    ("Maret", "March");
    ("April", "April");
    ("Mei", "May");
    ("Juni", "June");
    ("Juli", "July");
    ("Agustus", "August");
    ("September", "September");
    ("Oktober", "October");
    ("November", "November");
    ("Desember", "December") ].

(** One turn of the loop of lines 92-94. *)
Definition replace_month (date_str : PyStr.chars) (entry : string * string) : PyStr.chars :=
  let id_month := PyStr.of_string entry.1 in
  let en_month := PyStr.of_string entry.2 in
  if PyStr.contains id_month date_str
  then PyStr.replace id_month en_month date_str
  else date_str.

(** Lines 91-94: the string that line 95 stores. *)
Definition convert_date (date_value : string) : string :=
  let date_str := PyStr.strip (PyStr.of_string date_value) in
  PyStr.to_string (fold_left replace_month id_month_mapping date_str).

(** Line 85: [date_value is None or date_value == "" or not isinstance(date_value, str)] *)
Definition is_unusable (date_value : value) : bool :=
  match date_value with
  | VStr s => bool_decide (s = "")
  | _ => true
  end.

(** The body of the loop over [date_fields] (lines 83-99). *)
Definition process_date_field (processed_doc : value) (date_field : string) : M unit :=
  let! metadata := py_getitem processed_doc "metadata" in
  let! present := py_contains date_field metadata in
  if present : bool then
    let! metadata := py_getitem processed_doc "metadata" in
    let! date_value := py_getitem metadata date_field in
    if is_unusable date_value then
      let! metadata := py_getitem processed_doc "metadata" in
      py_pop metadata date_field
    else
      try_except
        (match date_value with
         | VStr s =>
             let date_str := convert_date s in
             let! metadata := py_getitem processed_doc "metadata" in
             py_setitem metadata date_field (VStr date_str)
         | _ => raise AttributeError
         end)
        (fun e =>
           print (PrDateWarning date_field date_value e) ;;
           let! metadata := py_getitem processed_doc "metadata" in
           py_pop metadata date_field)
  else ret tt.

Definition preprocess_document (doc : value) : M value :=
  let! processed_doc := py_copy doc in
  let! has_metadata := py_contains "metadata" processed_doc in
  (if has_metadata : bool
   then for_each date_fields (process_date_field processed_doc)
   else ret tt) ;;
  ret processed_doc.

(** The state with the dicts [h], nothing printed yet and the counter at 0. *)
Definition st0 (h : gmap loc (gmap string value)) : state := State h [] 0%Z.

(** ** Operations on parsed JSON *)

Module Json.

Fixpoint lookup (key : string) (o : list (string * json)) : option json :=
  match o with
  | [] => None
  | (k, v) :: o' => if decide (k = key) then Some v else lookup key o'
  end.

(** [x.get(key, default)] *)
Definition get (x : json) (key : string) (dflt : json) : result json :=
  match x with
  | JObj o => Ok (default dflt (lookup key o))
  | _ => Raise AttributeError
  end.

(** [x[key]] for a string [key] *)
Definition getitem (x : json) (key : string) : result json :=
  match x with
  | JObj o =>
      match lookup key o with
      | Some v => Ok v
      | None => Raise (KeyError key)
      end
  | _ => Raise TypeError
  end.

(** The elements that [for item in x] goes through. *)
Definition iter (x : json) : result (list json) :=
  match x with
  | JArr l => Ok l
  | JObj o => Ok (map (fun kv => JStr kv.1) o)
  | JStr s => Ok (map (fun c => JStr (String c EmptyString)) (list_ascii_of_string s))
  | JNull | JBool _ | JInt _ => Raise TypeError
  end.

(** Truth value of [x] in a condition. *)
Definition truthy (x : json) : bool :=
  match x with
  | JNull => false
  | JBool b => b
  | JInt z => negb (z =? 0)%Z
  | JStr s => negb (bool_decide (s = ""))
  | JArr l => negb (bool_decide (l = []))
  | JObj o => negb (bool_decide (o = []))
  end.

(** [x >= 400] *)
Definition ge_400 (x : json) : result bool :=
  match x with
  | JInt z => Ok (400 <=? z)%Z
  | JBool b => Ok false
  | _ => Raise TypeError
  end.

(** [isinstance(x, dict)] *)
Definition is_dict (x : json) : bool :=
  match x with
  | JObj _ => true
  | _ => false
  end.

(** [a == b] for two values used as dict keys ([True == 1], [False == 0]). *)
Definition key_eqb (a b : json) : bool :=
  match a, b with
  | JNull, JNull => true
  | JStr s, JStr t => bool_decide (s = t)
  | JInt x, JInt y => (x =? y)%Z
  | JBool x, JBool y => bool_decide (x = y)
  | JBool x, JInt y | JInt y, JBool x => ((if x then 1 else 0) =? y)%Z
  | _, _ => false
  end.

Definition hashable (x : json) : bool :=
  match x with
  | JArr _ | JObj _ => false
  | _ => true
  end.

End Json.

(** [item.get("index", {}).get("status", 500) >= 400] (line 263) *)
Definition is_error_item (item : json) : result bool :=
  match Json.get item "index" (JObj []) with
  | Raise e => Raise e
  | Ok index =>
      match Json.get index "status" (JInt 500) with
      | Raise e => Raise e
      | Ok status => Json.ge_400 status
      end
  end.

(** The list comprehension of line 263 over the elements [xs]. *)
Fixpoint select_errors (xs : list json) : result (list json) :=
  match xs with
  | [] => Ok []
  | item :: xs' =>
      match is_error_item item with
      | Raise e => Raise e
      | Ok keep =>
          match select_errors xs' with
          | Raise e => Raise e
          | Ok rest => Ok (if keep then item :: rest else rest)
          end
      end
  end.

(** Lines 270-282, for the error at position [idx] of [error_items[:3]]. *)
Definition report_error (idx : nat) (error_item : json) : M unit :=
  let! error_details := of_result (Json.get error_item "index" (JObj [])) in
  let! error_reason := of_result (Json.get error_details "error" (JObj [])) in
  let! doc_id := of_result (Json.get error_details "_id" (JStr "unknown")) in
  if Json.is_dict error_reason then
    let! error_type := of_result (Json.get error_reason "type" (JStr "unknown")) in
    let! error_reason_msg :=
      of_result (Json.get error_reason "reason" (JStr "No reason provided")) in
    let! cause := of_result (Json.get error_reason "caused_by" (JObj [])) in
    let! caused_by := of_result (Json.get cause "reason" (JStr "")) in
    print (PrErrorDetail (idx + 1) doc_id error_type error_reason_msg) ;;
    if Json.truthy caused_by then print (PrCausedBy caused_by) else ret tt
  else
    print (PrErrorOther (idx + 1) doc_id error_reason).

Fixpoint report_errors (idx : nat) (errors : list json) : M unit :=
  match errors with
  | [] => ret tt
  | error_item :: rest => report_error idx error_item ;; report_errors (S idx) rest
  end.

(** [error_types[error_type] = error_types.get(error_type, 0) + 1] (line 291);
    the dict is kept as the list of its entries in insertion order. *)
Fixpoint count_type (error_type : json) (error_types : list (json * Z)) : list (json * Z) :=
  match error_types with
  | [] => [(error_type, 1%Z)]
  | (k, n) :: rest =>
      if Json.key_eqb k error_type
      then (k, (n + 1)%Z) :: rest
      else (k, n) :: count_type error_type rest
  end.

(** Lines 288-291. *)
Fixpoint summarize (error_items : list json) (error_types : list (json * Z))
  : result (list (json * Z)) :=
  match error_items with
  | [] => Ok error_types
  | item :: rest =>
      match Json.get item "index" (JObj []) with
      | Raise e => Raise e
      | Ok index =>
          match Json.get index "error" (JObj []) with
          | Raise e => Raise e
          | Ok error =>
              match Json.get error "type" (JStr "unknown") with
              | Raise e => Raise e
              | Ok error_type =>
                  if Json.hashable error_type
                  then summarize rest (count_type error_type error_types)
                  else Raise TypeError
              end
          end
      end
  end.

(** ** The bulk payload and the batch loop (lines 217-308) *)

(** What [requests.post] does: it raises, or returns a response with its
    [status_code], its [text] and what [response.json()] gives. *)
Inductive http_result :=
| PostRaises (e : exn)
| PostResponse (status_code : Z) (text : string) (json_body : result json).

Definition index_name : string := "peraturan_indonesia".
Definition batch_size : nat := 50.
Definition newline : string := String (ascii_of_nat 10) EmptyString.

(** [range(start, stop, step)] for a positive [step]. *)
Definition py_range (start stop step : nat) : list nat :=
  map (fun k => start + k * step) (seq 0 ((stop - start + step - 1) / step)).

(** [l[i:j]] for [0 <= i <= j]. *)
Definition slice {A} (l : list A) (i j : nat) : list A := take (j - i) (drop i l).

(** The batches of line 242, in the order of the loop of line 241. *)
Definition batches {A} (items : list A) : list (list A) :=
  map (fun i => slice items i (i + batch_size)) (py_range 0 (length items) batch_size).

Section Job.

(** The library calls whose results are text: how an f-string renders a
    value, [json.dumps] of the index action with its [_index] and [_id],
    and [json.dumps] of a document (which can raise). *)
Variable py_format : gmap loc (gmap string value) -> value -> string.
Variable dumps_action : string -> string -> string.
Variable dumps_doc : gmap loc (gmap string value) -> value -> result string.

(** The search engine: the reply to the bulk request of the batch that
    starts at offset [i] and carries the payload [data]. *)
Variable requests_post : nat -> string -> http_result.

(** Lines 221-228, for one item; [bulk_data] is the list built so far. *)
Definition prepare_item (bulk_data : list string) (item : value) : M (list string) :=
  let! processed_item := preprocess_document item in
  let! m1 := py_getitem processed_item "metadata" in
  let! bentuk := py_get m1 "Bentuk Singkat" (VStr "doc") in
  let! m2 := py_getitem processed_item "metadata" in
  let! nomor := py_get m2 "Nomor" (VStr "") in
  let! m3 := py_getitem processed_item "metadata" in
  let! tahun := py_get m3 "Tahun" (VStr "") in
  fun st =>
    let h := heap st in
    let doc_id :=
      (py_format h bentuk +:+ "_" +:+ py_format h nomor +:+ "_" +:+ py_format h tahun) in
    let bulk_data := bulk_data ++ [dumps_action index_name doc_id] in
    match dumps_doc h processed_item with
    | Ok line => (Ok (bulk_data ++ [line]), st)
    | Raise e => (Raise e, st)
    end.

Fixpoint prepare_items (bulk_data : list string) (batch : list value) : M (list string) :=
  match batch with
  | [] => ret bulk_data
  | item :: rest =>
      let! bulk_data := prepare_item bulk_data item in
      prepare_items bulk_data rest
  end.

Definition prepare_bulk_data (batch : list value) : M string :=
  let! bulk_data := prepare_items [] batch in
  ret (String.concat newline bulk_data +:+ newline).

(** Lines 261-300: the accounting of a response with status 200. *)
Definition account (i total_docs : nat) (batch : list value) (result : json) : M unit :=
  let batch_no := i / batch_size + 1 in
  let n_batches := (total_docs + batch_size - 1) / batch_size in
  let! errors := of_result (Json.get result "errors" (JBool false)) in
  if Json.truthy errors then
    let! items := of_result (Json.getitem result "items") in
    let! elements := of_result (Json.iter items) in
    let! error_items := of_result (select_errors elements) in
    let success_items := (Z.of_nat (length batch) - Z.of_nat (length error_items))%Z in
    print (PrIndexedWithErrors batch_no n_batches success_items
             (length batch) (length error_items)) ;;
    report_errors 0 (take 3 error_items) ;;
    (if decide (3 < length error_items)
     then print (PrMoreErrors (length error_items - 3))
     else ret tt) ;;
    let! error_types := of_result (summarize error_items []) in
    print PrErrorSummaryHeader ;;
    for_each error_types (fun '(error_type, count) => print (PrErrorSummary error_type count)) ;;
    fun st => (Ok tt, add_success success_items st)
  else
    print (PrIndexed batch_no n_batches (length batch)) ;;
    fun st => (Ok tt, add_success (Z.of_nat (length batch)) st).

(** Lines 242-308: one turn of the batch loop, at offset [i]. *)
Definition loop_body (items : list value) (total_docs i : nat) : M unit :=
  let batch := slice items i (i + batch_size) in
  try_except
    (let! bulk_data := prepare_bulk_data batch in
     match requests_post i bulk_data with
     | PostRaises e => raise e
     | PostResponse status_code text json_body =>
         if decide (status_code = 200%Z) then
           let! result := of_result json_body in
           account i total_docs batch result
         else
           print (PrHttpError (i / batch_size + 1) status_code) ;;
           print (PrResponseText (substring 0 500 text))
     end)
    (fun e =>
       print (PrBatchException (i / batch_size + 1) e) ;;
       print (PrTraceback e)).

(** Lines 240-241: the loop over the first [k] offsets (all of them when
    [k] is the number of batches or more). *)
Definition bulk_index_upto (k : nat) (items : list value) : M unit :=
  let total_docs := length items in
  (fun st => (Ok tt, State (heap st) (stdout st) 0%Z)) ;;
  for_each (take k (py_range 0 total_docs batch_size)) (loop_body items total_docs).

Definition bulk_index (items : list value) : M unit :=
  let total_docs := length items in
  (fun st => (Ok tt, State (heap st) (stdout st) 0%Z)) ;;
  for_each (py_range 0 total_docs batch_size) (loop_body items total_docs).

End Job.

(** ** The effect of [preprocess_document] on a metadata dict, as a function

    These two functions are not part of the script: they describe, as plain
    functions on the entries of a dict, what the loop of lines 81-99 is
    proved below to do to the metadata object. *)

(** The entry of a recognized date field after normalisation, from its entry
    before. *)
Definition field_after (before : option value) : option value :=
  match before with
  | Some (VStr s) => if decide (s = "") then None else Some (VStr (convert_date s))
  | _ => None
  end.

Definition normalize_field (md : gmap string value) (date_field : string)
  : gmap string value :=
  match md !! date_field with
  | None => md
  | Some (VStr s) =>
      if decide (s = "") then delete date_field md
      else <[date_field := VStr (convert_date s)]> md
  | Some _ => delete date_field md
  end.

Definition normalize_metadata (md : gmap string value) : gmap string value :=
  fold_left normalize_field date_fields md.

(** ** Month substitution as the specification words it

    "Every occurrence of a month name of the mapping is replaced by its
    counterpart, all other characters are left as they are": one pass over
    the string, left to right; where a month name of the mapping starts, its
    counterpart is put out and the name is passed over, and any other
    character is put out as it is.  [convert_date] is compared with this
    below. *)

(** The first entry of [mapping] whose month name starts [s]. *)
Fixpoint month_at (mapping : list (string * string)) (s : PyStr.chars)
  : option (string * string) :=
  match mapping with
  | [] => None
  | entry :: rest =>
      if PyStr.starts_with (PyStr.of_string entry.1) s then Some entry
      else month_at rest s
  end.

Fixpoint substitute_go (skip : nat) (mapping : list (string * string)) (s : PyStr.chars)
  : PyStr.chars :=
  match s with
  | [] => []
  | c :: s' =>
      match skip with
      | S k => substitute_go k mapping s'
      | O =>
          match month_at mapping s with
          | Some entry =>
              PyStr.of_string entry.2
                ++ substitute_go (length (PyStr.of_string entry.1) - 1) mapping s'
          | None => c :: substitute_go 0 mapping s'
          end
      end
  end.

Definition substitute_months (s : PyStr.chars) : PyStr.chars :=
  substitute_go 0 id_month_mapping s.

(** "Trim surrounding whitespace, then substitute the month names." *)
Definition trimmed_and_substituted (date_value : string) : string :=
  PyStr.to_string (substitute_months (PyStr.strip (PyStr.of_string date_value))).

(** Upper-case letters: every month name, Indonesian or English, is one of
    them followed by characters that are not. *)
Definition is_upper (c : ascii) : bool :=
  (65 <=? nat_of_ascii c) && (nat_of_ascii c <=? 90).

Definition capitalizedb (w : PyStr.chars) : bool :=
  match w with
  | [] => false
  | u :: t => is_upper u && forallb (fun c => negb (is_upper c)) t
  end.

(** One string starts the other. *)
Definition clash (a b : PyStr.chars) : bool :=
  PyStr.starts_with a b || PyStr.starts_with b a.

(** No month name of a later entry clashes with the counterpart of an earlier
    one: a substitution never makes or begins a name still to be handled. *)
Fixpoint compatible (mapping : list (string * string)) : bool :=
  match mapping with
  | [] => true
  | entry :: rest =>
      forallb (fun later => negb (clash (PyStr.of_string later.1) (PyStr.of_string entry.2)))
              rest
      && compatible rest
  end.

(** The shapes used to compare the two substitutions: a run of characters
    that are not upper-case letters; a word that is one upper-case letter
    followed by such a run; a string that is empty or begins with an
    upper-case letter. *)
Definition lowers (t : PyStr.chars) : Prop := Forall (fun c => is_upper c = false) t.

Definition capitalized (w : PyStr.chars) : Prop :=
  exists u t, w = u :: t /\ is_upper u = true /\ lowers t.

Definition head_ok (r : PyStr.chars) : Prop :=
  match r with
  | [] => True
  | u :: _ => is_upper u = true
  end.

Definition entries_ok (mapping : list (string * string)) : Prop :=
  Forall (fun entry => capitalized (PyStr.of_string entry.1) /\
                       capitalized (PyStr.of_string entry.2)) mapping.

(** What the substitution makes of a word: the counterpart of the month name
    that starts it, followed by the rest of the word. *)
Definition segment_image (mapping : list (string * string)) (seg : PyStr.chars)
  : PyStr.chars :=
  match month_at mapping seg with
  | Some entry => PyStr.of_string entry.2 ++ drop (length (PyStr.of_string entry.1)) seg
  | None => seg
  end.

(** ** The date layouts of the index mapping (lines 138-140)

    The three date fields are mapped with the format below.  Each of its
    four layouts begins with a number, the day of the month or the year, so
    a string that the engine consumes as a date begins with a decimal digit
    or with the sign of a year.  Of the engine's date parser only this
    necessary condition is used. *)

Definition date_format : string :=
  "d MMMM yyyy||dd MMMM yyyy||yyyy-MM-dd||strict_date_optional_time".

Definition is_digit (c : ascii) : bool :=
  (48 <=? nat_of_ascii c) && (nat_of_ascii c <=? 57).

Definition may_be_consumed (s : string) : bool :=
  match s with
  | EmptyString => false
  | String c _ => is_digit c || bool_decide (c = "+"%char) || bool_decide (c = "-"%char)
  end.

(** ** What a step leaves alone

    [exec m st] is the state in which [m], started in [st], ends (with a
    result or with an exception).  A step is steady when it leaves the
    counter as it is and no dict without the ["metadata"] key gets one. *)

Definition exec {A} (m : M A) (st : state) : state := (m st).2.

Definition lacks_metadata (h : gmap loc (gmap string value)) (l : loc) : Prop :=
  exists d, h !! l = Some d /\ d !! "metadata" = None.

Definition steady (st st' : state) : Prop :=
  success_count st' = success_count st /\
  forall l, lacks_metadata (heap st) l -> lacks_metadata (heap st') l.

Definition steadily {A} (m : M A) : Prop := forall st, steady st (exec m st).

(** A step adds at most [n] to the counter. *)
Definition adds_upto (n : Z) {A} (m : M A) : Prop :=
  forall st, (success_count (exec m st) <= success_count st + n)%Z.

(** A reply with status 200 whose top-level [errors] flag is unset. *)
Definition clean_reply (reply : http_result) : Prop :=
  exists text o,
    reply = PostResponse 200%Z text (Ok (JObj o)) /\
    Json.truthy (default (JBool false) (Json.lookup "errors" o)) = false.

(** A submission that failed at transport level: the request raised, or the
    status of the reply is not 200. *)
Definition transport_failure (reply : http_result) : Prop :=
  match reply with
  | PostRaises _ => True
  | PostResponse status_code _ _ => status_code <> 200%Z
  end.

(** ** A concrete run, for the examples

    Library calls that render text, fifty records, and an engine that answers
    the bulk request with a given reply. *)

Definition example_format (h : gmap loc (gmap string value)) (v : value) : string :=
  match v with
  | VStr s => s
  | _ => "?"
  end.

Definition example_dumps_action (index id : string) : string := index +:+ "/" +:+ id.

Definition example_dumps_doc (h : gmap loc (gmap string value)) (v : value)
  : result string := Ok "{}".

Definition engine (reply : http_result) (i : nat) (data : string) : http_result := reply.

(** The store of the examples: the record [1] with the metadata dict [2]. *)
Definition record_with (metadata : gmap string value) : gmap loc (gmap string value) :=
  {[ 1%positive := {[ "metadata" := VRef 2%positive ]}; 2%positive := metadata ]}.

(** Record [n] is the dict at [2n+1]; its metadata is the dict at [2n+2]. *)
Definition example_items (n : nat) : list value :=
  map (fun k => VRef (Pos.of_nat (2 * k + 1))) (seq 0 n).

Definition example_heap (n : nat) : gmap loc (gmap string value) :=
  list_to_map
    (flat_map (fun k =>
                 [ (Pos.of_nat (2 * k + 1), {[ "metadata" := VRef (Pos.of_nat (2 * k + 2)) ]});
                   (Pos.of_nat (2 * k + 2),
                    {[ "Bentuk Singkat" := VStr "PP"; "Tahun" := VStr "2001" ]}) ])
              (seq 0 n)).

Definition indexed_item : json :=
  JObj [("index", JObj [("_id", JStr "PP__2001"); ("status", JInt 201)])].

(** A failure as the engine reports it now: [error] is an object. *)
Definition failed_item : json :=
  JObj [("index", JObj [("_id", JStr "PP__2001"); ("status", JInt 400);
                        ("error", JObj [("type", JStr "mapper_parsing_exception");
                                        ("reason", JStr "failed to parse")])])].

(** A failure whose [error] is a string, the case that line 274 tests for. *)
Definition failed_item_text : json :=
  JObj [("index", JObj [("_id", JStr "PP__2001"); ("status", JInt 400);
                        ("error", JStr "MapperParsingException[failed to parse]")])].

Definition reply_with (items : list json) : http_result :=
  PostResponse 200%Z "" (Ok (JObj [("errors", JBool true); ("items", JArr items)])).

Definition clean_response : http_result :=
  PostResponse 200%Z "" (Ok (JObj [("errors", JBool false); ("items", JArr [indexed_item])])).


(** ** What the job does to the objects it is given

    [preserved R m]: the step [m] takes every state to a state that is
    [R]-related to it, whether it ends with a result or with an exception. *)
Definition preserved (R : state -> state -> Prop) {A} (m : M A) : Prop :=
  forall st, R st (exec m st).

(** Every dict is still there and holds what it held under every key but the
    three date fields. *)
Definition heap_kept (st st' : state) : Prop :=
  forall l d, heap st !! l = Some d ->
    exists d', heap st' !! l = Some d' /\
               forall key, key ∉ date_fields -> d' !! key = d !! key.

(** Nothing was printed. *)
Definition console_kept (st st' : state) : Prop := stdout st' = stdout st.

(** ** Shapes of strings and of the month mapping, for the properties of
    [convert_date] *)

(** The string is empty or begins with a character that is not whitespace;
    it has no whitespace at either end; it is whitespace throughout. *)
Definition starts_clean (s : PyStr.chars) : Prop :=
  match s with
  | [] => True
  | c :: _ => PyStr.is_space c = false
  end.

Definition trimmed (s : PyStr.chars) : Prop := starts_clean s /\ starts_clean (rev s).

Definition blank (s : PyStr.chars) : Prop := Forall (fun c => PyStr.is_space c = true) s.

(** A month name that one of the counterparts starts, or that starts one of
    them, is spelled like its own counterpart (as April, September and
    November are). *)
Definition stableb (mapping : list (string * string)) : bool :=
  forallb (fun entry =>
             forallb (fun other =>
                        negb (clash (PyStr.of_string other.1) (PyStr.of_string entry.2))
                        || String.eqb other.1 other.2)
                     mapping)
          mapping.

(** No counterpart ends with whitespace. *)
Definition ends_cleanb (mapping : list (string * string)) : bool :=
  forallb (fun entry =>
             match last (PyStr.of_string entry.2) with
             | Some c => negb (PyStr.is_space c)
             | None => true
             end)
          mapping.

(** ** The id of a document (line 224)

    The text that the f-string of line 224 builds from the metadata [md], in
    the heap [h], with the rendering [fmt] of a value. *)
Definition doc_id_of (fmt : gmap loc (gmap string value) -> value -> string)
    (h : gmap loc (gmap string value)) (md : gmap string value) : string :=
  fmt h (default (VStr "doc") (md !! "Bentuk Singkat")) +:+ "_" +:+
  fmt h (default (VStr "") (md !! "Nomor")) +:+ "_" +:+
  fmt h (default (VStr "") (md !! "Tahun")).

(** A value that is not a dict. *)
Definition not_a_dict (v : value) : Prop :=
  match v with
  | VRef _ => False
  | _ => True
  end.

(** The dicts are all as they were. *)
Definition heap_same (st st' : state) : Prop := heap st' = heap st.

(** What is wrong with the body of a reply with status 200, if the
    accounting of lines 258-263 cannot read it: [response.json()] raised; the
    document is not an object, so that [result.get] raises; or the [errors]
    flag is set and there is no ["items"] entry. *)
Definition reply_defect (json_body : result json) : option exn :=
  match json_body with
  | Raise e => Some e
  | Ok (JObj o) =>
      if Json.truthy (default (JBool false) (Json.lookup "errors" o))
      then match Json.lookup "items" o with
           | None => Some (KeyError "items")
           | Some _ => None
           end
      else None
  | Ok _ => Some AttributeError
  end.



(** ** The summary of the error types (lines 288-295)

    The sum of the counts of a summary, and the check that no two of its
    categories are equal as dict keys. *)
Definition total_count (error_types : list (json * Z)) : Z :=
  foldr (fun entry acc => (entry.2 + acc)%Z) 0%Z error_types.

Fixpoint distinct_types (error_types : list (json * Z)) : bool :=
  match error_types with
  | [] => true
  | (k, _) :: rest =>
      forallb (fun entry => negb (Json.key_eqb k entry.1)) rest && distinct_types rest
  end.

(** ** The script around the loop: handshake, provisioning, test search
    (lines 22-51, 177-214, 317-347)

    These parts print, wait and send requests; they raise nothing to their
    caller and may end the process with [exit(1)].  Their state is the
    console, the waits and the requests sent so far. *)

Inductive request :=
| ReqGet (attempt : nat)       (* line 28 *)
| ReqHead                      (* line 180 *)
| ReqDelete                    (* line 187 *)
| ReqPut                       (* line 201 *)
| ReqSearch.                   (* line 333 *)

Inductive script_line :=
| PrConnected                                              (* 35 *)
| PrVersion (number : json)                                (* 36 *)
| PrStatusFailed (status_code : Z)                         (* 39 *)
| PrResponse (text : string)                               (* 40 *)
| PrRetrying (attempt : nat)                               (* 41 *)
| PrConnectionError (e : exn) (attempt : nat)              (* 43 *)
| PrGiveUp                                                 (* 48 *)
| PrGiveUpDocker                                           (* 49 *)
| PrGiveUpEnv                                              (* 50 *)
| PrIndexExists                                            (* 186 *)
| PrDeleteFailed (text : string)                           (* 192 *)
| PrCheckError (e : exn)                                   (* 195 *)
| PrCreating                                               (* 199 *)
| PrCreateFailed (text : string)                           (* 208 *)
| PrCreated                                                (* 211 *)
| PrCreateError (e : exn)                                  (* 213 *)
| PrSearching                                              (* 332 *)
| PrFound (total : json)                                   (* 341 *)
| PrHit (title score : json)                               (* 343 *)
| PrSearchFailed (text : string)                           (* 345 *)
| PrSearchError (e : exn).                                 (* 347 *)

Record world := World {
  console : list script_line;
  slept : list nat;
  sent : list request
}.

Definition say (l : script_line) (w : world) : world :=
  World (console w ++ [l]) (slept w) (sent w).

Definition sleep (seconds : nat) (w : world) : world :=
  World (console w) (slept w ++ [seconds]) (sent w).

Definition send (r : request) (w : world) : world :=
  World (console w) (slept w) (sent w ++ [r]).

(** How a part of the script ends: the script goes on, or the process ends
    with the given exit code. *)
Inductive ending :=
| GoesOn
| Exits (code : Z).

Definition max_retries : nat := 5.
Definition retry_delay : nat := 5.

(** [response.json()['version']['number']] (line 36) *)
Definition version_number (json_body : result json) : result json :=
  match json_body with
  | Raise e => Raise e
  | Ok info =>
      match Json.getitem info "version" with
      | Raise e => Raise e
      | Ok version => Json.getitem version "number"
      end
  end.

(** Lines 26-46: one turn of the handshake loop; the boolean tells whether
    the loop is left by [break]. *)
Definition connect_attempt (requests_get : nat -> http_result) (attempt : nat) (w : world)
  : bool * world :=
  let w := send (ReqGet attempt) w in
  let '(broke, w) :=
    match requests_get attempt with
    | PostRaises e => (false, say (PrConnectionError e (attempt + 1)) w)
    | PostResponse status_code text json_body =>
        if decide (status_code = 200%Z) then
          let w := say PrConnected w in
          match version_number json_body with
          | Ok number => (true, say (PrVersion number) w)
          | Raise e => (false, say (PrConnectionError e (attempt + 1)) w)
          end
        else
          (false, say (PrRetrying (attempt + 1))
                    (say (PrResponse text) (say (PrStatusFailed status_code) w)))
    end in
  if broke : bool then (true, w)
  else (false, if decide (attempt < max_retries - 1) then sleep retry_delay w else w).

(** Line 25: the loop over the attempts, up to the [break]. *)
Fixpoint connect_loop (requests_get : nat -> http_result) (attempts : list nat) (w : world)
  : bool * world :=
  match attempts with
  | [] => (false, w)
  | attempt :: rest =>
      let '(broke, w) := connect_attempt requests_get attempt w in
      if broke : bool then (true, w) else connect_loop requests_get rest w
  end.

(** Lines 25-51, with the [else] of the [for]. *)
Definition connect (requests_get : nat -> http_result) (w : world) : ending * world :=
  let '(broke, w) := connect_loop requests_get (py_range 0 max_retries 1) w in
  if broke : bool then (GoesOn, w)
  else (Exits 1, say PrGiveUpEnv (say PrGiveUpDocker (say PrGiveUp w))).

(** The engine answers the probe: status 200 and a version number that can
    be read. *)
Definition answers (reply : http_result) : bool :=
  match reply with
  | PostResponse status_code _ json_body =>
      bool_decide (status_code = 200%Z) &&
      match version_number json_body with Ok _ => true | Raise _ => false end
  | PostRaises _ => false
  end.

(** Lines 179-196: the check for the index and its deletion. *)
Definition drop_index (head_reply delete_reply : http_result) (w : world) : ending * world :=
  let w := send ReqHead w in
  match head_reply with
  | PostRaises e => (Exits 1, say (PrCheckError e) w)
  | PostResponse status_code _ _ =>
      if decide (status_code = 200%Z) then
        let w := send ReqDelete (say PrIndexExists w) in
        match delete_reply with
        | PostRaises e => (Exits 1, say (PrCheckError e) w)
        | PostResponse delete_status text _ =>
            if decide (delete_status = 200%Z \/ delete_status = 404%Z)
            then (GoesOn, w)
            else (Exits 1, say (PrDeleteFailed text) w)
        end
      else (GoesOn, w)
  end.

(** Lines 199-214: the creation of the index. *)
Definition create_index (put_reply : http_result) (w : world) : ending * world :=
  let w := send ReqPut (say PrCreating w) in
  match put_reply with
  | PostRaises e => (Exits 1, say (PrCreateError e) w)
  | PostResponse status_code text _ =>
      if decide (status_code = 200%Z) then (GoesOn, say PrCreated w)
      else (Exits 1, say (PrCreateFailed text) w)
  end.

(** Lines 177-214. *)
Definition provision (head_reply delete_reply put_reply : http_result) (w : world)
  : ending * world :=
  match drop_index head_reply delete_reply w with
  | (GoesOn, w) => create_index put_reply w
  | (Exits code, w) => (Exits code, w)
  end.

(** Line 343, for one hit: the title and the score that are printed. *)
Definition hit_line (hit : json) : result script_line :=
  match Json.getitem hit "_source" with
  | Raise e => Raise e
  | Ok source =>
      match Json.getitem source "metadata" with
      | Raise e => Raise e
      | Ok metadata =>
          match Json.get metadata "Judul" (JStr "No title") with
          | Raise e => Raise e
          | Ok title =>
              match Json.getitem hit "_score" with
              | Raise e => Raise e
              | Ok score => Ok (PrHit title score)
              end
          end
      end
  end.

(** Lines 342-343: the loop over the hits, up to the first exception. *)
Fixpoint list_hits (hits : list json) (w : world) : result unit * world :=
  match hits with
  | [] => (Ok tt, w)
  | hit :: rest =>
      match hit_line hit with
      | Ok line => list_hits rest (say line w)
      | Raise e => (Raise e, w)
      end
  end.

(** Lines 340-343: the report of a reply with status 200. *)
Definition report_hits (json_body : result json) (w : world) : result unit * world :=
  match json_body with
  | Raise e => (Raise e, w)
  | Ok results =>
      match Json.getitem results "hits" with
      | Raise e => (Raise e, w)
      | Ok hits =>
          match Json.getitem hits "total" with
          | Raise e => (Raise e, w)
          | Ok total =>
              match Json.getitem total "value" with
              | Raise e => (Raise e, w)
              | Ok value =>
                  let w := say (PrFound value) w in
                  match Json.getitem results "hits" with
                  | Raise e => (Raise e, w)
                  | Ok hits =>
                      match Json.getitem hits "hits" with
                      | Raise e => (Raise e, w)
                      | Ok found =>
                          match Json.iter found with
                          | Raise e => (Raise e, w)
                          | Ok elements => list_hits elements w
                          end
                      end
                  end
              end
          end
      end
  end.

(** Lines 318-347: the test search. *)
Definition test_search (search_reply : http_result) (w : world) : world :=
  let w := send ReqSearch (say PrSearching w) in
  match search_reply with
  | PostRaises e => say (PrSearchError e) w
  | PostResponse status_code text json_body =>
      if decide (status_code = 200%Z) then
        match report_hits json_body w with
        | (Ok _, w) => w
        | (Raise e, w) => say (PrSearchError e) w
        end
      else say (PrSearchFailed text) w
  end.

(** The index is out of the way: the check was answered, and either the
    index was not there or its deletion was answered with 200 or 404. *)
Definition index_cleared (head_reply delete_reply : http_result) : bool :=
  match head_reply with
  | PostRaises _ => false
  | PostResponse status_code _ _ =>
      if decide (status_code = 200%Z) then
        match delete_reply with
        | PostRaises _ => false
        | PostResponse delete_status _ _ =>
            bool_decide (delete_status = 200%Z \/ delete_status = 404%Z)
        end
      else true
  end.

(** The check found the index (status 200). *)
Definition index_found (head_reply : http_result) : bool :=
  match head_reply with
  | PostRaises _ => false
  | PostResponse status_code _ _ => bool_decide (status_code = 200%Z)
  end.

(** The creation was answered with status 200. *)
Definition index_created (put_reply : http_result) : bool :=
  match put_reply with
  | PostRaises _ => false
  | PostResponse status_code _ _ => bool_decide (status_code = 200%Z)
  end.

(** * Properties *)

(** ** The string operations and the normaliser on examples *)

Example strip_ex :
  PyStr.to_string (PyStr.strip (PyStr.of_string "  17 Mei 2001 ")) = "17 Mei 2001"%string.
Proof. reflexivity. Qed.

Example replace_ex :
  PyStr.to_string (PyStr.replace (PyStr.of_string "aa") (PyStr.of_string "b")
                     (PyStr.of_string "aaaXaa")) = "baXb"%string.
Proof. reflexivity. Qed.

Example preprocess_ex :
  let h : gmap loc (gmap string value) :=
    {[ 1%positive := {[ "metadata" := VRef 2%positive ]};
       2%positive := {[ "Tanggal Berlaku" := VStr "17 Agustus 1945" ]} ]} in
  match preprocess_document (VRef 1%positive) (st0 h) with
  | (Ok (VRef p), st) =>
      (heap st !! p) ≫= (fun d => d !! "metadata") = Some (VRef 2%positive) /\
      (heap st !! 2%positive) ≫= (fun d => d !! "Tanggal Berlaku") = Some (VStr "17 August 1945")
  | _ => False
  end.
Proof. vm_compute. split; reflexivity. Qed.

(** ** Batching *)

Section Batching.
Context {A : Type}.
Implicit Types (items : list A).

Lemma py_range_0 n step :
  py_range 0 n step = map (fun k => k * step) (seq 0 ((n + step - 1) / step)).
Proof. unfold py_range. by rewrite Nat.sub_0_r. Qed.

Lemma slice_window items i n : slice items i (i + n) = take n (drop i items).
Proof. unfold slice. f_equal. lia. Qed.

Lemma batches_unfold items :
  batches items =
  map (fun k => take batch_size (drop (k * batch_size) items))
      (seq 0 ((length items + batch_size - 1) / batch_size)).
Proof.
  unfold batches. rewrite py_range_0, map_map.
  apply map_ext. intros k. apply slice_window.
Qed.

Lemma concat_windows items (b m : nat) :
  concat (map (fun k => take b (drop (k * b) items)) (seq 0 m)) = take (m * b) items.
Proof.
  induction m as [|m IH]; [done|].
  rewrite seq_S, map_app, concat_app, IH. simpl.
  rewrite app_nil_r, take_take_drop. f_equal. lia.
Qed.

Lemma n_batches_covers n : n <= (n + batch_size - 1) / batch_size * batch_size.
Proof.
  unfold batch_size.
  pose proof (Nat.div_mod (n + 50 - 1) 50 ltac:(lia)).
  pose proof (Nat.mod_upper_bound (n + 50 - 1) 50 ltac:(lia)). lia.
Qed.

Lemma n_batches_tight n k :
  S k < (n + batch_size - 1) / batch_size -> k * batch_size + batch_size <= n.
Proof.
  unfold batch_size. intros Hk.
  pose proof (Nat.div_mod (n + 50 - 1) 50 ltac:(lia)).
  pose proof (Nat.mod_upper_bound (n + 50 - 1) 50 ltac:(lia)). lia.
Qed.

Lemma length_batches items :
  length (batches items) = (length items + batch_size - 1) / batch_size.
Proof. by rewrite batches_unfold, length_map, length_seq. Qed.

Lemma batches_lookup items k b :
  batches items !! k = Some b ->
  b = take batch_size (drop (k * batch_size) items) /\
  k < (length items + batch_size - 1) / batch_size.
Proof.
  rewrite batches_unfold. intros H.
  apply list_lookup_fmap_Some in H as (j & Hb & Hj).
  apply lookup_seq in Hj as [-> Hlt]. by simpl in *.
Qed.

Lemma concat_batches items : concat (batches items) = items.
Proof. rewrite batches_unfold, concat_windows. apply take_ge, n_batches_covers. Qed.

(** C5. The batches are the consecutive slices [items[i:i+50]]: put end to
    end in the order of submission they give back the collection; each one
    is the slice that starts where the one before ended; every batch but
    the last holds exactly 50 records, and none is empty or holds more than
    50; 120 records make three batches of 50, 50 and 20 records. *)
Theorem batches_partition items :
  concat (batches items) = items /\
  (forall k b, batches items !! k = Some b -> b = slice items (k * 50) (k * 50 + 50)) /\
  (forall k b, batches items !! k = Some b -> S k < length (batches items) ->
               length b = 50) /\
  (forall b, b ∈ batches items -> 0 < length b <= 50) /\
  (length items = 120 -> map length (batches items) = [50; 50; 20]).
Proof.
  split; [|split; [|split; [|split]]].
  - apply concat_batches.
  - intros k b [-> _]%batches_lookup. by rewrite slice_window.
  - intros k b [-> _]%batches_lookup Hk. rewrite length_batches in Hk.
    apply n_batches_tight in Hk.
    rewrite length_take, length_drop. unfold batch_size in *. lia.
  - intros b (k & Hk)%list_elem_of_lookup.
    apply batches_lookup in Hk as [-> Hk].
    rewrite length_take, length_drop.
    assert (k * batch_size < length items); [|unfold batch_size in *; lia].
    unfold batch_size in *.
    pose proof (Nat.div_mod (length items + 50 - 1) 50 ltac:(lia)).
    pose proof (Nat.mod_upper_bound (length items + 50 - 1) 50 ltac:(lia)). lia.
  - intros Hlen. rewrite batches_unfold, map_map, Hlen.
    change ((120 + batch_size - 1) / batch_size) with 3. simpl.
    rewrite !length_take, !length_drop, Hlen. reflexivity.
Qed.

End Batching.

Lemma batches_partition_witness :
  replicate 50 tt = slice (replicate 120 tt) (1 * 50) (1 * 50 + 50) /\
  length (replicate 50 tt) = 50 /\
  0 < length (replicate 20 tt) <= 50 /\
  map length (batches (replicate 120 tt)) = [50; 50; 20].
Proof.
  destruct (batches_partition (replicate 120 tt)) as (_ & Hslice & Hfull & Hsize & Hlen).
  split; [|split; [|split]].
  - apply (Hslice 1). reflexivity.
  - apply (Hfull 1); [reflexivity|]. vm_compute. lia.
  - apply Hsize. vm_compute. apply elem_of_cons. right. apply elem_of_cons. right. by left.
  - apply Hlen. apply length_replicate.
Defined.

(** ** The normaliser *)

Lemma set_heap_id st : set_heap (heap st) st = st.
Proof. by destruct st. Qed.

Lemma normalize_field_lookup md f g :
  normalize_field md f !! g = if decide (g = f) then field_after (md !! f) else md !! g.
Proof.
  unfold normalize_field, field_after.
  destruct (md !! f) as [v|] eqn:Hf.
  - destruct v; repeat case_decide; simplify_map_eq; done.
  - case_decide; by simplify_eq.
Qed.

Lemma normalize_fields_lookup fs md g :
  NoDup fs ->
  fold_left normalize_field fs md !! g =
  if decide (g ∈ fs) then field_after (md !! g) else md !! g.
Proof.
  intros Hnd. revert md. induction Hnd as [|f fs Hf Hnd IH]; intros md; simpl.
  - destruct (decide (g ∈ [])) as [Hin|]; [by apply elem_of_nil in Hin|done].
  - rewrite IH, !normalize_field_lookup.
    destruct (decide (g = f)) as [->|Hne].
    + rewrite (decide_False (P := f ∈ fs)) by done.
      by rewrite (decide_True (P := f ∈ f :: fs)) by left.
    + destruct (decide (g ∈ fs)) as [Hin|Hin].
      * by rewrite (decide_True (P := g ∈ f :: fs)) by (by right).
      * rewrite (decide_False (P := g ∈ f :: fs)); [done|].
        by intros [?|?]%elem_of_cons.
Qed.

Lemma date_fields_elem f :
  f ∈ date_fields <->
  f = "Tanggal Penetapan" \/ f = "Tanggal Pengundangan" \/ f = "Tanggal Berlaku".
Proof. unfold date_fields. rewrite !elem_of_cons, elem_of_nil. tauto. Qed.

Lemma date_fields_NoDup : NoDup date_fields.
Proof. apply (bool_decide_unpack _). by vm_compute. Qed.

Lemma normalize_metadata_lookup md g :
  normalize_metadata md !! g =
  if decide (g ∈ date_fields) then field_after (md !! g) else md !! g.
Proof. apply normalize_fields_lookup, date_fields_NoDup. Qed.

(** One date field, when the copy [p] refers to the metadata dict [m]. *)
Lemma process_date_field_dict st p d m md f :
  heap st !! p = Some d ->
  d !! "metadata" = Some (VRef m) ->
  heap st !! m = Some md ->
  process_date_field (VRef p) f st =
  (Ok tt, set_heap (<[m := normalize_field md f]> (heap st)) st).
Proof.
  intros Hp Hmeta Hm.
  unfold process_date_field, normalize_field, bind, py_getitem, py_contains.
  rewrite Hp, Hmeta, Hm.
  destruct (md !! f) as [v|] eqn:Hf.
  - rewrite bool_decide_true by eauto. rewrite Hp, Hmeta, Hm, Hf.
    destruct v; simpl; unfold py_pop; rewrite ?Hp, ?Hmeta, ?Hm; try done.
    case_bool_decide; case_decide; try done.
    + by rewrite Hp, Hmeta, Hm.
    + unfold try_except, bind, py_getitem, py_setitem. by rewrite Hp, Hmeta, Hm.
  - rewrite bool_decide_false by (by intros [? ?]).
    unfold ret. by rewrite insert_id, set_heap_id.
Qed.

Lemma process_date_fields_dict fs st p d m md :
  p <> m ->
  heap st !! p = Some d ->
  d !! "metadata" = Some (VRef m) ->
  heap st !! m = Some md ->
  for_each fs (process_date_field (VRef p)) st =
  (Ok tt, set_heap (<[m := fold_left normalize_field fs md]> (heap st)) st).
Proof.
  intros Hne. revert st md. induction fs as [|f fs IH]; intros st md Hp Hmeta Hm; simpl.
  - unfold ret. by rewrite insert_id, set_heap_id.
  - unfold bind at 1. erewrite process_date_field_dict by done.
    erewrite IH; [|simpl; by simplify_map_eq..].
    simpl. by rewrite insert_insert_eq.
Qed.

(** What [preprocess_document] does to a record whose metadata is a dict:
    the copy [p] is a new object with the entries of the record, and the
    metadata object itself is rewritten. *)
Lemma preprocess_document_dict st doc d m md :
  heap st !! doc = Some d ->
  d !! "metadata" = Some (VRef m) ->
  heap st !! m = Some md ->
  let p := fresh (dom (heap st)) in
  preprocess_document (VRef doc) st =
  (Ok (VRef p), set_heap (<[m := normalize_metadata md]> (<[p := d]> (heap st))) st).
Proof.
  intros Hdoc Hmeta Hm p.
  assert (heap st !! p = None) as Hfresh.
  { apply not_elem_of_dom, is_fresh. }
  assert (p <> m) as Hne by congruence.
  unfold preprocess_document, bind at 1, py_copy. rewrite Hdoc. fold p.
  unfold bind at 1, py_contains. cbn [heap set_heap]. rewrite lookup_insert_eq, Hmeta.
  rewrite bool_decide_true by eauto.
  unfold bind at 1.
  erewrite (process_date_fields_dict date_fields _ p d m md);
    [|done|cbn [heap set_heap]; by simplify_map_eq..].
  done.
Qed.

(** A record without the ["metadata"] key is only copied. *)
Lemma preprocess_document_no_metadata st doc d :
  heap st !! doc = Some d ->
  d !! "metadata" = None ->
  let p := fresh (dom (heap st)) in
  preprocess_document (VRef doc) st = (Ok (VRef p), set_heap (<[p := d]> (heap st)) st).
Proof.
  intros Hdoc Hmeta p.
  unfold preprocess_document, bind at 1, py_copy. rewrite Hdoc. fold p.
  unfold bind at 1, py_contains. cbn [heap set_heap]. rewrite lookup_insert_eq, Hmeta.
  rewrite bool_decide_false by (by intros [? ?]). done.
Qed.

(** ** Month substitution: the loop of lines 92-94 is the one-pass substitution *)

Section Substitution.
Import PyStr.
Implicit Types (s t r w seg : chars) (K : list (string * string)).

Lemma starts_with_spec p s : starts_with p s = true <-> exists r, s = p ++ r.
Proof.
  revert s. induction p as [|a p IH]; intros s; simpl.
  - split; [eauto|done].
  - destruct s as [|b s]; [split; [done|by intros [? ?]]|].
    case_decide as Hab.
    + subst. rewrite IH. split; intros [r Hr]; exists r; simpl in *; congruence.
    + split; [done|]. intros [r Hr]. simpl in Hr. congruence.
Qed.

Lemma starts_with_app p s r : starts_with p s = true -> starts_with p (s ++ r) = true.
Proof.
  rewrite !starts_with_spec. intros [q ->]. exists (q ++ r). by rewrite app_assoc.
Qed.

Lemma starts_with_cut w t r :
  lowers w -> head_ok r -> starts_with w (t ++ r) = true -> starts_with w t = true.
Proof.
  intros Hw Hr. revert t. induction Hw as [|a w Ha Hw IH]; intros t; [done|].
  destruct t as [|b t]; simpl.
  - destruct r as [|u r]; [done|]. simpl in Hr. case_decide; [congruence|done].
  - case_decide; [apply IH|done].
Qed.

Lemma starts_with_clash a b rest : starts_with a (b ++ rest) = true -> clash a b = true.
Proof.
  unfold clash. revert b. induction a as [|x a IH]; intros b; [done|].
  destruct b as [|y b]; [done|]. simpl.
  destruct (decide (x = y)) as [->|]; [|done]. intros H%IH.
  by rewrite decide_True.
Qed.

Lemma capitalizedb_sound w : capitalizedb w = true -> capitalized w.
Proof.
  destruct w as [|u t]; [done|]. simpl. intros [Hu Ht]%andb_true_iff.
  exists u, t. split_and!; [done..|].
  apply Forall_forall. intros c Hc. rewrite forallb_forall in Ht.
  apply negb_true_iff, Ht. by apply list_elem_of_In.
Qed.

Lemma month_at_Some K s entry :
  month_at K s = Some entry -> entry ∈ K /\ starts_with (of_string entry.1) s = true.
Proof.
  induction K as [|e K IH]; [done|]. simpl.
  destruct (starts_with (of_string e.1) s) eqn:He.
  - intros [= <-]. split; [left|done].
  - intros [? ?]%IH. split; [by right|done].
Qed.

Lemma month_at_lower K c s :
  entries_ok K -> is_upper c = false -> month_at K (c :: s) = None.
Proof.
  intros HK Hc. induction HK as [|e K [(u & t & Hkey & Hu & _) _] _ IH]; [done|].
  simpl. rewrite Hkey. simpl. case_decide; [congruence|done].
Qed.

Lemma month_at_segment K u t r :
  entries_ok K -> lowers t -> head_ok r ->
  month_at K (u :: t ++ r) = month_at K (u :: t).
Proof.
  intros HK Ht Hr. induction HK as [|e K [(u' & w & Hkey & _ & Hw) _] _ IH]; [done|].
  simpl. rewrite IH, Hkey. simpl. case_decide; [|done].
  destruct (starts_with w t) eqn:Hwt.
  - by rewrite starts_with_app.
  - destruct (starts_with w (t ++ r)) eqn:Hwtr; [|done].
    apply starts_with_cut in Hwtr; [congruence|done..].
Qed.

Lemma entries_ok_elem K entry :
  entries_ok K -> entry ∈ K ->
  capitalized (of_string entry.1) /\ capitalized (of_string entry.2).
Proof. unfold entries_ok. rewrite Forall_forall. auto. Qed.

Lemma substitute_go_skip k K s : substitute_go k K s = substitute_go 0 K (drop k s).
Proof.
  revert k. induction s as [|c s IH]; intros [|k]; try done. simpl. apply IH.
Qed.

Lemma substitute_cons K c s :
  entries_ok K ->
  substitute_go 0 K (c :: s) =
  match month_at K (c :: s) with
  | Some entry =>
      of_string entry.2 ++ substitute_go 0 K (drop (length (of_string entry.1)) (c :: s))
  | None => c :: substitute_go 0 K s
  end.
Proof.
  intros HK. simpl. destruct (month_at K (c :: s)) as [e|] eqn:He; [|done].
  apply month_at_Some in He as [He _].
  destruct (entries_ok_elem _ _ HK He) as [(u & t & -> & _) _].
  rewrite substitute_go_skip. simpl. by rewrite Nat.sub_0_r.
Qed.

Lemma substitute_lowers K t r :
  entries_ok K -> lowers t -> substitute_go 0 K (t ++ r) = t ++ substitute_go 0 K r.
Proof.
  intros HK Ht. induction Ht as [|c t Hc Ht IH]; [done|].
  rewrite <-!app_comm_cons, substitute_cons, month_at_lower by done. by rewrite IH.
Qed.

Lemma starts_with_capitalized key u t :
  capitalized key -> lowers t -> starts_with key (u :: t) = true ->
  exists rest, u :: t = key ++ rest /\ lowers rest.
Proof.
  intros (u' & w & -> & _ & Hw) Ht [rest Hrest]%starts_with_spec.
  exists rest. split; [done|]. simpl in Hrest. injection Hrest as _ ->.
  by apply Forall_app in Ht as [_ ?].
Qed.

Lemma substitute_segment K u t r :
  entries_ok K -> lowers t -> head_ok r ->
  substitute_go 0 K ((u :: t) ++ r) = segment_image K (u :: t) ++ substitute_go 0 K r.
Proof.
  intros HK Ht Hr. rewrite <-app_comm_cons, substitute_cons by done.
  unfold segment_image. rewrite month_at_segment by done.
  destruct (month_at K (u :: t)) as [e|] eqn:He.
  - apply month_at_Some in He as [He Hsw].
    destruct (entries_ok_elem _ _ HK He) as [Hkey _].
    destruct (starts_with_capitalized _ _ _ Hkey Ht Hsw) as (rest & Heq & Hrest).
    rewrite app_comm_cons, Heq, <-app_assoc, !drop_app_length.
    by rewrite substitute_lowers, app_assoc.
  - by rewrite substitute_lowers.
Qed.

Lemma head_ok_substitute K r : entries_ok K -> head_ok r -> head_ok (substitute_go 0 K r).
Proof.
  intros HK Hr. destruct r as [|u r]; [done|]. rewrite substitute_cons by done.
  destruct (month_at K (u :: r)) as [e|] eqn:He; [|done].
  apply month_at_Some in He as [He _].
  by destruct (entries_ok_elem _ _ HK He) as [_ (u' & t & -> & Hu & _)].
Qed.

Lemma capitalized_segment_image K seg :
  entries_ok K -> capitalized seg -> capitalized (segment_image K seg).
Proof.
  intros HK Hseg. unfold segment_image.
  destruct (month_at K seg) as [e|] eqn:He; [|done].
  apply month_at_Some in He as [He Hsw].
  destruct (entries_ok_elem _ _ HK He) as [Hkey (u' & w & Hval & Hu' & Hw)].
  destruct Hseg as (u & t & -> & _ & Ht).
  destruct (starts_with_capitalized _ _ _ Hkey Ht Hsw) as (rest & Heq & Hrest).
  rewrite Heq, drop_app_length, Hval. exists u', (w ++ rest).
  split_and!; [done..|]. by apply Forall_app.
Qed.

(** The loop body of lines 93-94 is the one-pass substitution of its entry. *)
Lemma replace_go_substitute k entry s :
  replace_go k (of_string entry.1) (of_string entry.2) s = substitute_go k [entry] s.
Proof.
  revert k. induction s as [|c s IH]; intros k; [done|]. simpl.
  destruct k as [|k]; [|apply IH].
  destruct (starts_with (of_string entry.1) (c :: s)); by rewrite IH.
Qed.

Lemma substitute_absent entry s :
  contains (of_string entry.1) s = false -> substitute_go 0 [entry] s = s.
Proof.
  induction s as [|c s IH]; [done|]. simpl.
  intros [-> Hs]%orb_false_iff. by rewrite IH.
Qed.

Lemma replace_month_substitute entry s :
  capitalized (of_string entry.1) -> replace_month s entry = substitute_go 0 [entry] s.
Proof.
  intros (u & t & Hkey & _). unfold replace_month.
  destruct (contains (of_string entry.1) s) eqn:Hc.
  - unfold replace. rewrite <-replace_go_substitute. by rewrite Hkey.
  - by rewrite substitute_absent.
Qed.

Lemma entries_ok_single K entry : entries_ok K -> entry ∈ K -> entries_ok [entry].
Proof. intros HK He. constructor; [by eapply entries_ok_elem|constructor]. Qed.

Lemma fold_nil K : entries_ok K -> fold_left replace_month K [] = [].
Proof.
  induction 1 as [|e K [He _] _ IH]; [done|]. simpl.
  by rewrite replace_month_substitute.
Qed.

Lemma fold_lower K c s :
  entries_ok K -> is_upper c = false ->
  fold_left replace_month K (c :: s) = c :: fold_left replace_month K s.
Proof.
  intros HK Hc. revert s. induction HK as [|e K [He Hv] HK IH]; intros s; [done|].
  assert (entries_ok [e]) as Hone by (by constructor).
  simpl. rewrite !replace_month_substitute by done.
  by rewrite substitute_cons, month_at_lower, IH.
Qed.

(** The loop works word by word. *)
Lemma fold_segment K seg r :
  entries_ok K -> capitalized seg -> head_ok r ->
  fold_left replace_month K (seg ++ r) =
  fold_left (fun sg entry => segment_image [entry] sg) K seg
    ++ fold_left replace_month K r.
Proof.
  intros HK. revert seg r.
  induction HK as [|e K [He Hv] HK IH]; intros seg r Hseg Hr; [done|].
  assert (entries_ok [e]) as Hone by (by constructor).
  simpl. rewrite !replace_month_substitute by done.
  pose proof Hseg as (u & t & -> & Hu & Ht).
  rewrite substitute_segment by done.
  apply IH; [by apply capitalized_segment_image|by apply head_ok_substitute].
Qed.

(** A word that begins with the counterpart of an earlier entry is left
    alone by the later ones. *)
Lemma segment_fold_fixed K v rest :
  Forall (fun later => clash (of_string later.1) v = false) K ->
  fold_left (fun sg entry => segment_image [entry] sg) K (v ++ rest) = v ++ rest.
Proof.
  induction 1 as [|e K He _ IH]; [done|]. simpl.
  unfold segment_image at 2. simpl.
  destruct (starts_with (of_string e.1) (v ++ rest)) eqn:Hsw; [|done].
  apply starts_with_clash in Hsw. congruence.
Qed.

Lemma segment_fold_image K seg :
  compatible K = true ->
  fold_left (fun sg entry => segment_image [entry] sg) K seg = segment_image K seg.
Proof.
  revert seg. induction K as [|e K IH]; intros seg; [done|].
  simpl. intros [Hlater HK]%andb_true_iff.
  unfold segment_image at 2 3. simpl.
  destruct (starts_with (of_string e.1) seg) eqn:Hsw.
  - apply segment_fold_fixed. apply Forall_forall. intros e' He'.
    rewrite forallb_forall in Hlater. apply negb_true_iff, Hlater.
    by apply list_elem_of_In.
  - by apply IH.
Qed.

Lemma lower_split s : exists t r, s = t ++ r /\ lowers t /\ head_ok r.
Proof.
  induction s as [|c s (t & r & -> & Ht & Hr)].
  { exists [], []. split_and!; [done|constructor|done]. }
  destruct (is_upper c) eqn:Hc.
  - exists [], (c :: t ++ r). split_and!; [done|constructor|done].
  - exists (c :: t), r. split_and!; [done| |done]. by constructor.
Qed.

(** Replacing the month names one after the other, as the loop does, is the
    one-pass substitution. *)
Lemma sequential_is_one_pass K s :
  entries_ok K -> compatible K = true ->
  fold_left replace_month K s = substitute_go 0 K s.
Proof.
  intros HK Hcompat.
  remember (length s) as n eqn:Hn. revert s Hn.
  induction n as [n IH] using lt_wf_ind. intros s Hn.
  destruct s as [|c s]; [by rewrite fold_nil|].
  destruct (is_upper c) eqn:Hc.
  - destruct (lower_split s) as (t & r & -> & Ht & Hr).
    rewrite app_comm_cons, fold_segment, substitute_segment by (done || by exists c, t).
    rewrite segment_fold_image by done. f_equal.
    apply (IH (length r)); [|done]. simpl in Hn. rewrite length_app in Hn. lia.
  - rewrite fold_lower, substitute_cons, month_at_lower by done. f_equal.
    apply (IH (length s)); [|done]. simpl in Hn. lia.
Qed.

Lemma id_month_mapping_ok : entries_ok id_month_mapping.
Proof.
  apply Forall_forall. intros e He.
  assert (capitalizedb (of_string e.1) && capitalizedb (of_string e.2) = true) as H.
  { revert e He. apply Forall_forall. by repeat constructor. }
  apply andb_true_iff in H as [? ?]. by split; apply capitalizedb_sound.
Qed.

Lemma id_month_mapping_compatible : compatible id_month_mapping = true.
Proof. by vm_compute. Qed.

(** What line 95 stores is the trimmed value with every month name of the
    mapping replaced and the rest untouched. *)
Lemma convert_date_one_pass date_value :
  convert_date date_value = trimmed_and_substituted date_value.
Proof.
  unfold convert_date, trimmed_and_substituted, substitute_months.
  by rewrite sequential_is_one_pass
    by (apply id_month_mapping_ok || apply id_month_mapping_compatible).
Qed.

End Substitution.

(** ** [preprocess_document]: the claims *)

(** C1. The call changes the record it is given: [doc.copy()] copies the
    top level only, the copy and the input share the metadata dict, and the
    date fields are rewritten and removed in that shared dict.  Here the
    input's own metadata holds ["17 August 1945"] after the call where it
    held ["17 Agustus 1945"] before, and has lost its empty date field. *)
Theorem preprocess_document_changes_input :
  let h := record_with {[ "Tanggal Berlaku" := VStr "17 Agustus 1945";
                          "Tanggal Penetapan" := VStr "" ]} in
  exists p st',
    preprocess_document (VRef 1%positive) (st0 h) = (Ok (VRef p), st') /\
    (h !! 1%positive) ≫= (fun d => d !! "metadata") = Some (VRef 2%positive) /\
    (heap st' !! 1%positive) ≫= (fun d => d !! "metadata") = Some (VRef 2%positive) /\
    (h !! 2%positive) ≫= (fun md => md !! "Tanggal Berlaku")
      = Some (VStr "17 Agustus 1945") /\
    (heap st' !! 2%positive) ≫= (fun md => md !! "Tanggal Berlaku")
      = Some (VStr "17 August 1945") /\
    (h !! 2%positive) ≫= (fun md => md !! "Tanggal Penetapan") = Some (VStr "") /\
    (heap st' !! 2%positive) ≫= (fun md => md !! "Tanggal Penetapan") = None.
Proof.
  intros h. eexists _, _. split; [by vm_compute|]. by vm_compute.
Qed.

(** The top level of the input is kept: the record still holds the entries
    it held, while its metadata object is the normalised one. *)
Lemma preprocess_document_top_level st doc d m md :
  heap st !! doc = Some d ->
  d !! "metadata" = Some (VRef m) ->
  heap st !! m = Some md ->
  doc <> m ->
  exists p st',
    preprocess_document (VRef doc) st = (Ok (VRef p), st') /\
    heap st' !! doc = Some d /\
    heap st' !! p = Some d /\
    heap st' !! m = Some (normalize_metadata md).
Proof.
  intros Hdoc Hmeta Hm Hne. eexists _, _.
  split; [by apply preprocess_document_dict|].
  assert (heap st !! fresh (dom (heap st)) = None) as Hfresh.
  { apply not_elem_of_dom, is_fresh. }
  cbn [heap set_heap]. split_and!; by simplify_map_eq.
Qed.

(** C6. On a record whose ["metadata"] entry, when there is one, is a dict,
    the call returns and raises nothing; the result is a new record with the
    entries of the input, and each recognized date field of the metadata is
    then either gone or holds the converted string of the string it held. *)
Theorem preprocess_document_never_raises st doc d :
  heap st !! doc = Some d ->
  (forall v, d !! "metadata" = Some v ->
             exists m md, v = VRef m /\ heap st !! m = Some md) ->
  exists p st',
    preprocess_document (VRef doc) st = (Ok (VRef p), st') /\
    heap st !! p = None /\
    heap st' !! p = Some d /\
    forall m md, d !! "metadata" = Some (VRef m) -> heap st !! m = Some md ->
      exists md', heap st' !! m = Some md' /\
        forall f, f ∈ date_fields ->
          md' !! f = None \/
          exists s, md !! f = Some (VStr s) /\ md' !! f = Some (VStr (convert_date s)).
Proof.
  intros Hdoc Hwf.
  assert (heap st !! fresh (dom (heap st)) = None) as Hfresh.
  { apply not_elem_of_dom, is_fresh. }
  destruct (d !! "metadata") as [v|] eqn:Hmeta.
  - destruct (Hwf v eq_refl) as (m & md & -> & Hm).
    eexists _, _. split; [by eapply preprocess_document_dict|].
    cbn [heap set_heap]. split; [done|]. split.
    { rewrite lookup_insert_ne by congruence. by simplify_map_eq. }
    intros m' md' [= <-] Hm'. rewrite Hm in Hm'. injection Hm' as <-.
    exists (normalize_metadata md). split; [by simplify_map_eq|].
    intros f Hf. rewrite normalize_metadata_lookup, decide_True by done.
    unfold field_after. destruct (md !! f) as [[]|]; try by left.
    case_decide; [by left|right; eauto].
  - eexists _, _. split; [by apply preprocess_document_no_metadata|].
    cbn [heap set_heap]. split; [done|]. split; [by simplify_map_eq|]. done.
Qed.

Lemma preprocess_document_never_raises_witness :
  exists p st',
    preprocess_document (VRef 1%positive)
      (st0 (record_with {[ "Tanggal Berlaku" := VNone ]})) = (Ok (VRef p), st').
Proof.
  destruct (preprocess_document_never_raises
              (st0 (record_with {[ "Tanggal Berlaku" := VNone ]})) 1%positive
              {[ "metadata" := VRef 2%positive ]}) as (p & st' & H & _).
  - reflexivity.
  - intros v [= <-]. by eexists _, _.
  - by exists p, st'.
Defined.

(** C7. A recognized date field that holds a non-empty string holds, after
    the call, that string with the surrounding whitespace trimmed and every
    occurrence of each of the twelve Indonesian month names replaced by its
    English counterpart, all other characters kept as they are; and
    ["17 Agustus 1945"] becomes ["17 August 1945"]. *)
Theorem date_field_converted :
  (forall st doc d m md f s,
     heap st !! doc = Some d ->
     d !! "metadata" = Some (VRef m) ->
     heap st !! m = Some md ->
     f ∈ date_fields ->
     md !! f = Some (VStr s) ->
     s <> "" ->
     exists p st' md',
       preprocess_document (VRef doc) st = (Ok (VRef p), st') /\
       (heap st' !! p) ≫= (fun d' => d' !! "metadata") = Some (VRef m) /\
       heap st' !! m = Some md' /\
       md' !! f = Some (VStr (trimmed_and_substituted s))) /\
  convert_date "17 Agustus 1945" = "17 August 1945".
Proof.
  split; [|by vm_compute].
  intros st doc d m md f s Hdoc Hmeta Hm Hf Hs Hne.
  assert (heap st !! fresh (dom (heap st)) = None) as Hfresh.
  { apply not_elem_of_dom, is_fresh. }
  eexists _, _, _. split; [by eapply preprocess_document_dict|].
  cbn [heap set_heap]. split_and!.
  - rewrite lookup_insert_ne by congruence. by simplify_map_eq.
  - by simplify_map_eq.
  - rewrite normalize_metadata_lookup, decide_True by done.
    unfold field_after. rewrite Hs, decide_False by done.
    by rewrite convert_date_one_pass.
Qed.

Lemma date_field_converted_witness :
  exists p st' md',
    preprocess_document (VRef 1%positive)
      (st0 (record_with {[ "Tanggal Berlaku" := VStr "17 Agustus 1945" ]}))
    = (Ok (VRef p), st') /\
    heap st' !! 2%positive = Some md' /\
    md' !! "Tanggal Berlaku" = Some (VStr "17 August 1945").
Proof.
  destruct (proj1 date_field_converted
              (st0 (record_with {[ "Tanggal Berlaku" := VStr "17 Agustus 1945" ]}))
              1%positive {[ "metadata" := VRef 2%positive ]} 2%positive
              {[ "Tanggal Berlaku" := VStr "17 Agustus 1945" ]}
              "Tanggal Berlaku" "17 Agustus 1945")
    as (p & st' & md' & Hrun & _ & Hmd & Hf).
  - reflexivity.
  - reflexivity.
  - reflexivity.
  - apply date_fields_elem. auto.
  - reflexivity.
  - discriminate.
  - exists p, st', md'. split_and!; [done..|].
    rewrite Hf. by vm_compute.
Defined.

(** C8, as stated, fails: nothing is checked against the date layouts, so a
    date field that holds any other text survives with that text. *)
Lemma surviving_date_field_not_consumable :
  ~ (forall st doc d m md f p st' v,
       heap st !! doc = Some d ->
       d !! "metadata" = Some (VRef m) ->
       heap st !! m = Some md ->
       preprocess_document (VRef doc) st = (Ok (VRef p), st') ->
       f ∈ date_fields ->
       (heap st' !! m) ≫= (fun md' => md' !! f) = Some v ->
       exists s, v = VStr s /\ may_be_consumed s = true).
Proof.
  intros H.
  edestruct (H (st0 (record_with {[ "Tanggal Berlaku" := VStr "Belum berlaku" ]}))
               1%positive {[ "metadata" := VRef 2%positive ]} 2%positive
               {[ "Tanggal Berlaku" := VStr "Belum berlaku" ]} "Tanggal Berlaku")
    as (s & Hv & Hs).
  - reflexivity.
  - reflexivity.
  - reflexivity.
  - by apply preprocess_document_dict.
  - apply date_fields_elem. auto.
  - vm_compute. reflexivity.
  - injection Hv as <-. by vm_compute in Hs.
Qed.

(** C8, amended. A recognized date field that is present in the metadata
    after the call held a non-empty string before it and holds the converted
    string of that string; an entry that was [None], the empty string or not
    a string is gone.  No check against the date layouts is made. *)
Theorem surviving_date_field st doc d m md f p st' v :
  heap st !! doc = Some d ->
  d !! "metadata" = Some (VRef m) ->
  heap st !! m = Some md ->
  preprocess_document (VRef doc) st = (Ok (VRef p), st') ->
  f ∈ date_fields ->
  (heap st' !! m) ≫= (fun md' => md' !! f) = Some v ->
  exists s, md !! f = Some (VStr s) /\ s <> "" /\ v = VStr (convert_date s).
Proof.
  intros Hdoc Hmeta Hm Hrun Hf Hv.
  erewrite preprocess_document_dict in Hrun by done. injection Hrun as _ <-.
  cbn [heap set_heap] in Hv. rewrite lookup_insert_eq in Hv. simpl in Hv.
  rewrite normalize_metadata_lookup, decide_True in Hv by done.
  unfold field_after in Hv. destruct (md !! f) as [[]|]; try done.
  case_decide; [done|]. injection Hv as <-. eauto.
Qed.

Lemma surviving_date_field_witness :
  exists s, ({[ "Tanggal Berlaku" := VStr " 1 Mei 2020" ]} : gmap string value)
              !! "Tanggal Berlaku" = Some (VStr s) /\
            s <> "" /\ VStr "1 May 2020" = VStr (convert_date s).
Proof.
  eapply (surviving_date_field
            (st0 (record_with {[ "Tanggal Berlaku" := VStr " 1 Mei 2020" ]}))
            1%positive {[ "metadata" := VRef 2%positive ]} 2%positive
            {[ "Tanggal Berlaku" := VStr " 1 Mei 2020" ]} "Tanggal Berlaku").
  - reflexivity.
  - reflexivity.
  - reflexivity.
  - by apply preprocess_document_dict.
  - apply date_fields_elem. auto.
  - vm_compute. reflexivity.
Defined.

(** C9. A recognized date field that the metadata does not hold before the
    call is not held after it; and a record without the ["metadata"] key
    comes back as a record with exactly the entries of the input, every
    other object, the console and the counter being as before. *)
Theorem absent_stays_absent :
  (forall st doc d m md f,
     heap st !! doc = Some d ->
     d !! "metadata" = Some (VRef m) ->
     heap st !! m = Some md ->
     f ∈ date_fields ->
     md !! f = None ->
     exists p st' md',
       preprocess_document (VRef doc) st = (Ok (VRef p), st') /\
       (heap st' !! p) ≫= (fun d' => d' !! "metadata") = Some (VRef m) /\
       heap st' !! m = Some md' /\
       md' !! f = None) /\
  (forall st doc d,
     heap st !! doc = Some d ->
     d !! "metadata" = None ->
     exists p st',
       preprocess_document (VRef doc) st = (Ok (VRef p), st') /\
       heap st !! p = None /\
       heap st' !! p = Some d /\
       (forall l, l <> p -> heap st' !! l = heap st !! l) /\
       stdout st' = stdout st /\
       success_count st' = success_count st).
Proof.
  split.
  - intros st doc d m md f Hdoc Hmeta Hm Hf Hnone.
    assert (heap st !! fresh (dom (heap st)) = None) as Hfresh.
    { apply not_elem_of_dom, is_fresh. }
    eexists _, _, _. split; [by eapply preprocess_document_dict|].
    cbn [heap set_heap]. split_and!.
    + rewrite lookup_insert_ne by congruence. by simplify_map_eq.
    + by simplify_map_eq.
    + rewrite normalize_metadata_lookup, decide_True by done. by rewrite Hnone.
  - intros st doc d Hdoc Hmeta.
    assert (heap st !! fresh (dom (heap st)) = None) as Hfresh.
    { apply not_elem_of_dom, is_fresh. }
    eexists _, _. split; [by apply preprocess_document_no_metadata|].
    cbn [heap set_heap]. split_and!; try done; [by simplify_map_eq|].
    intros l Hl. by rewrite lookup_insert_ne.
Qed.

Lemma absent_stays_absent_witness :
  (exists p st' md',
     preprocess_document (VRef 1%positive)
       (st0 (record_with {[ "Tanggal Berlaku" := VStr "1 Mei 2020" ]}))
     = (Ok (VRef p), st') /\
     heap st' !! 2%positive = Some md' /\
     md' !! "Tanggal Penetapan" = None) /\
  (exists p st',
     preprocess_document (VRef 1%positive) (st0 {[ 1%positive := {[ "abstrak" := VStr "x" ]} ]})
     = (Ok (VRef p), st') /\
     heap st' !! p = Some {[ "abstrak" := VStr "x" ]}).
Proof.
  split.
  - destruct (proj1 absent_stays_absent
                (st0 (record_with {[ "Tanggal Berlaku" := VStr "1 Mei 2020" ]}))
                1%positive {[ "metadata" := VRef 2%positive ]} 2%positive
                {[ "Tanggal Berlaku" := VStr "1 Mei 2020" ]} "Tanggal Penetapan")
      as (p & st' & md' & Hrun & _ & Hmd & Hf).
    + reflexivity.
    + reflexivity.
    + reflexivity.
    + apply date_fields_elem. auto.
    + reflexivity.
    + by exists p, st', md'.
  - destruct (proj2 absent_stays_absent
                (st0 {[ 1%positive := {[ "abstrak" := VStr "x" ]} ]})
                1%positive {[ "abstrak" := VStr "x" ]})
      as (p & st' & Hrun & _ & Hp & _).
    + reflexivity.
    + reflexivity.
    + by exists p, st'.
Defined.

(** ** Steady steps *)

Lemma steady_refl st : steady st st.
Proof. by split. Qed.

Lemma steady_trans st1 st2 st3 : steady st1 st2 -> steady st2 st3 -> steady st1 st3.
Proof. intros [H1 H1'] [H2 H2']. split; [congruence|auto]. Qed.

Lemma steadily_ret {A} (a : A) : steadily (ret a).
Proof. intros st. apply steady_refl. Qed.

Lemma steadily_raise {A} e : steadily (@raise A e).
Proof. intros st. apply steady_refl. Qed.

Lemma steadily_bind {A B} (m : M A) (k : A -> M B) :
  steadily m -> (forall a, steadily (k a)) -> steadily (bind m k).
Proof.
  intros Hm Hk st. specialize (Hm st). unfold exec, bind in *.
  destruct (m st) as [[a|e] st1]; [|done].
  eapply steady_trans; [done|apply Hk].
Qed.

Lemma steadily_try {A} (body : M A) handler :
  steadily body -> (forall e, steadily (handler e)) -> steadily (try_except body handler).
Proof.
  intros Hm Hk st. specialize (Hm st). unfold exec, try_except in *.
  destruct (body st) as [[a|e] st1]; [done|].
  eapply steady_trans; [done|apply Hk].
Qed.

Lemma steadily_for_each {A} (xs : list A) body :
  (forall x, x ∈ xs -> steadily (body x)) -> steadily (for_each xs body).
Proof.
  induction xs as [|x xs IH]; intros Hbody; simpl; [apply steadily_ret|].
  apply steadily_bind; [apply Hbody; by left|].
  intros _. apply IH. intros y Hy. apply Hbody. by right.
Qed.

Lemma steadily_print l : steadily (print l).
Proof. intros st. by split. Qed.

Lemma steadily_of_result {A} (r : result A) : steadily (of_result r).
Proof. destruct r; [apply steadily_ret|apply steadily_raise]. Qed.

Lemma steadily_py_contains key c : steadily (py_contains key c).
Proof.
  intros st. unfold exec, py_contains.
  destruct c; try apply steady_refl. destruct (heap st !! _); apply steady_refl.
Qed.

Lemma steadily_py_getitem c key : steadily (py_getitem c key).
Proof.
  intros st. unfold exec, py_getitem.
  destruct c; try apply steady_refl.
  destruct (heap st !! _) as [d|]; [destruct (d !! key)|]; apply steady_refl.
Qed.

Lemma steadily_py_get c key dflt : steadily (py_get c key dflt).
Proof.
  intros st. unfold exec, py_get.
  destruct c; try apply steady_refl. destruct (heap st !! _); apply steady_refl.
Qed.

Lemma lacks_metadata_insert h l d l' :
  lacks_metadata h l' ->
  (l = l' -> d !! "metadata" = None) ->
  lacks_metadata (<[l := d]> h) l'.
Proof.
  intros (d' & Hd' & Hnone) Hd. unfold lacks_metadata.
  destruct (decide (l = l')) as [->|Hne].
  - exists d. by rewrite lookup_insert_eq; auto.
  - exists d'. by rewrite lookup_insert_ne.
Qed.

Lemma steadily_py_pop c key : steadily (py_pop c key).
Proof.
  intros st. unfold exec, py_pop.
  destruct c; try apply steady_refl.
  destruct (heap st !! l) as [d|] eqn:Hl; [|apply steady_refl].
  split; [done|]. cbn [snd heap set_heap]. intros l' Hl'.
  apply lacks_metadata_insert; [done|]. intros <-.
  destruct Hl' as (d' & Hd' & Hnone). rewrite Hl in Hd'. injection Hd' as <-.
  destruct (decide (key = "metadata")) as [->|Hne].
  - apply lookup_delete_eq.
  - by rewrite lookup_delete_ne.
Qed.

Lemma steadily_py_setitem c key v : key <> "metadata" -> steadily (py_setitem c key v).
Proof.
  intros Hkey st. unfold exec, py_setitem.
  destruct c; try apply steady_refl.
  destruct (heap st !! l) as [d|] eqn:Hl; [|apply steady_refl].
  split; [done|]. cbn [snd heap set_heap]. intros l' Hl'.
  apply lacks_metadata_insert; [done|]. intros <-.
  destruct Hl' as (d' & Hd' & Hnone). rewrite Hl in Hd'. injection Hd' as <-.
  by rewrite lookup_insert_ne.
Qed.

Lemma steadily_py_copy doc : steadily (py_copy doc).
Proof.
  intros st. unfold exec, py_copy.
  destruct doc; try apply steady_refl.
  destruct (heap st !! l) as [d|] eqn:Hl; [|apply steady_refl].
  split; [done|]. cbn [snd heap set_heap]. intros l' Hl'.
  apply lacks_metadata_insert; [done|]. intros <-.
  destruct Hl' as (d' & Hd' & _).
  assert (heap st !! fresh (dom (heap st)) = None) as Hfresh.
  { apply not_elem_of_dom, is_fresh. }
  congruence.
Qed.

Create HintDb steady.
#[local] Hint Resolve steadily_ret steadily_raise steadily_print steadily_of_result
  steadily_py_contains steadily_py_getitem steadily_py_get steadily_py_pop
  steadily_py_copy : steady.

Ltac steady_step :=
  match goal with
  | |- steadily (bind _ _) => apply steadily_bind; [|intros ?]
  | |- steadily (try_except _ _) => apply steadily_try; [|intros ?]
  | |- steadily (if ?b then _ else _) => destruct b
  | |- steadily (match ?x with _ => _ end) => destruct x
  | |- steadily _ => solve [auto with steady]
  end.

Lemma steadily_process_date_field doc f :
  f <> "metadata" -> steadily (process_date_field doc f).
Proof.
  intros Hf. unfold process_date_field. repeat steady_step.
  all: by apply steadily_py_setitem.
Qed.

Lemma steadily_preprocess_document doc : steadily (preprocess_document doc).
Proof.
  unfold preprocess_document. repeat steady_step.
  apply steadily_for_each. intros f Hf. apply steadily_process_date_field.
  intros ->. apply date_fields_elem in Hf as [?|[?|?]]; discriminate.
Qed.

(** ** The batch loop *)

Lemma steadily_adds_upto {A} (m : M A) n : (0 <= n)%Z -> steadily m -> adds_upto n m.
Proof. intros Hn Hm st. destruct (Hm st) as [-> _]. lia. Qed.

Lemma adds_upto_bind {A B} (m : M A) (k : A -> M B) n :
  (0 <= n)%Z -> steadily m -> (forall a, adds_upto n (k a)) -> adds_upto n (bind m k).
Proof.
  intros Hn Hm Hk st. destruct (Hm st) as [Hcount _]. unfold exec, bind in *.
  destruct (m st) as [[a|e] st1]; simpl in *; [|lia].
  specialize (Hk a st1). unfold exec in Hk. lia.
Qed.

Lemma adds_upto_try {A} (body : M A) handler n :
  adds_upto n body -> (forall e, steadily (handler e)) ->
  adds_upto n (try_except body handler).
Proof.
  intros Hm Hk st. specialize (Hm st). unfold exec, try_except in *.
  destruct (body st) as [[a|e] st1]; [done|].
  destruct (Hk e st1) as [Hcount _]. unfold exec in Hcount. simpl in *. lia.
Qed.

Lemma for_each_app {A} (xs ys : list A) body st :
  for_each (xs ++ ys) body st =
  match for_each xs body st with
  | (Ok _, st') => for_each ys body st'
  | (Raise e, st') => (Raise e, st')
  end.
Proof.
  revert st. induction xs as [|x xs IH]; intros st; [done|].
  simpl. unfold bind. destruct (body x st) as [[[]|e] st1]; [apply IH|done].
Qed.

Lemma for_each_ok {A} (xs : list A) body :
  (forall x st, exists st', body x st = (Ok tt, st')) ->
  forall st, exists st', for_each xs body st = (Ok tt, st').
Proof.
  intros Hbody. induction xs as [|x xs IH]; intros st; [by eexists|].
  simpl. unfold bind. destruct (Hbody x st) as [st1 ->]. apply IH.
Qed.

Lemma steadily_report_errors idx errors : steadily (report_errors idx errors).
Proof.
  revert idx. induction errors as [|item errors IH]; intros idx; simpl.
  - apply steadily_ret.
  - apply steadily_bind; [|intros _; apply IH].
    unfold report_error. repeat steady_step.
Qed.

Section JobProperties.

Variable py_format : gmap loc (gmap string value) -> value -> string.
Variable dumps_action : string -> string -> string.
Variable dumps_doc : gmap loc (gmap string value) -> value -> result string.
Variable requests_post : nat -> string -> http_result.

Local Abbreviation prepare_item' := (prepare_item py_format dumps_action dumps_doc).
Local Abbreviation prepare_items' := (prepare_items py_format dumps_action dumps_doc).
Local Abbreviation prepare_bulk_data' :=
  (prepare_bulk_data py_format dumps_action dumps_doc).
Local Abbreviation loop_body' :=
  (loop_body py_format dumps_action dumps_doc requests_post).
Local Abbreviation bulk_index_upto' :=
  (bulk_index_upto py_format dumps_action dumps_doc requests_post).
Local Abbreviation bulk_index' :=
  (bulk_index py_format dumps_action dumps_doc requests_post).

Lemma steadily_prepare_item bulk_data item : steadily (prepare_item' bulk_data item).
Proof.
  unfold prepare_item. repeat steady_step.
  - apply steadily_preprocess_document.
  - intros st. unfold exec. destruct (dumps_doc _ _); apply steady_refl.
Qed.

Lemma steadily_prepare_items bulk_data batch : steadily (prepare_items' bulk_data batch).
Proof.
  revert bulk_data. induction batch as [|item batch IH]; intros bulk_data; simpl.
  - apply steadily_ret.
  - apply steadily_bind; [apply steadily_prepare_item|apply IH].
Qed.

Lemma steadily_prepare_bulk_data batch : steadily (prepare_bulk_data' batch).
Proof.
  unfold prepare_bulk_data.
  apply steadily_bind; [apply steadily_prepare_items|intros; apply steadily_ret].
Qed.

Lemma account_adds_upto i total_docs batch result :
  adds_upto (Z.of_nat (length batch)) (account i total_docs batch result).
Proof.
  unfold account.
  apply adds_upto_bind; [lia|apply steadily_of_result|]. intros errors.
  destruct (Json.truthy errors).
  - repeat (apply adds_upto_bind;
            [lia
            |first [apply steadily_of_result | apply steadily_print
                   | apply steadily_report_errors | idtac] | intros ?]).
    + case_decide; [apply steadily_print|apply steadily_ret].
    + apply steadily_for_each. intros [? ?] _. apply steadily_print.
    + intros st. unfold exec. simpl. lia.
  - apply adds_upto_bind; [lia|apply steadily_print|]. intros _ st.
    unfold exec. simpl. lia.
Qed.

Lemma steadily_handler i e :
  steadily (print (PrBatchException (i / batch_size + 1) e) ;; print (PrTraceback e)).
Proof. repeat steady_step. Qed.

Lemma loop_body_adds_upto items total_docs i :
  adds_upto (Z.of_nat (length (slice items i (i + batch_size))))
            (loop_body' items total_docs i).
Proof.
  unfold loop_body.
  apply adds_upto_try; [|intros e; apply steadily_handler].
  apply adds_upto_bind; [lia|apply steadily_prepare_bulk_data|]. intros data.
  destruct (requests_post i data) as [e|status_code text json_body].
  - apply steadily_adds_upto; [lia|apply steadily_raise].
  - case_decide.
    + apply adds_upto_bind; [lia|apply steadily_of_result|]. intros result.
      apply account_adds_upto.
    + apply steadily_adds_upto; [lia|]. repeat steady_step.
Qed.

(** No exception leaves a turn of the loop. *)
Lemma loop_body_ok items total_docs i st :
  exists st', loop_body' items total_docs i st = (Ok tt, st').
Proof.
  unfold loop_body, try_except.
  match goal with |- context [?body st] => destruct (body st) as [[[]|e] st1] end.
  - by eexists.
  - by eexists.
Qed.

Lemma loop_ok items total_docs idxs st :
  exists st', for_each idxs (loop_body' items total_docs) st = (Ok tt, st').
Proof. apply for_each_ok. intros. apply loop_body_ok. Qed.

Lemma loop_snoc items total_docs idxs i st :
  exec (for_each (idxs ++ [i]) (loop_body' items total_docs)) st =
  exec (loop_body' items total_docs i) (exec (for_each idxs (loop_body' items total_docs)) st).
Proof.
  unfold exec. rewrite for_each_app.
  destruct (loop_ok items total_docs idxs st) as [st1 ->]. simpl.
  unfold bind. by destruct (loop_body_ok items total_docs i st1) as [st2 ->].
Qed.

Lemma exec_bulk_index_upto k items st :
  exec (bulk_index_upto' k items) st =
  exec (for_each (take k (py_range 0 (length items) batch_size))
                 (loop_body' items (length items)))
       (State (heap st) (stdout st) 0%Z).
Proof. done. Qed.

Lemma exec_bulk_index items st :
  exec (bulk_index' items) st =
  exec (bulk_index_upto' (length (py_range 0 (length items) batch_size)) items) st.
Proof. rewrite exec_bulk_index_upto, firstn_all. done. Qed.

Lemma upto_succ items k i st :
  py_range 0 (length items) batch_size !! k = Some i ->
  exec (bulk_index_upto' (S k) items) st =
  exec (loop_body' items (length items) i) (exec (bulk_index_upto' k items) st).
Proof.
  intros Hi. rewrite !exec_bulk_index_upto.
  erewrite take_S_r by done. apply loop_snoc.
Qed.

Lemma loop_adds_upto items total_docs idxs :
  adds_upto
    (Z.of_nat (length (concat (map (fun i => slice items i (i + batch_size)) idxs))))
    (for_each idxs (loop_body' items total_docs)).
Proof.
  induction idxs as [|i idxs IH]; intros st.
  - unfold exec. simpl. lia.
  - pose proof (loop_body_adds_upto items total_docs i st) as Hi.
    unfold exec in *. simpl. unfold bind.
    destruct (loop_body_ok items total_docs i st) as [st1 Hst1].
    rewrite Hst1 in *. specialize (IH st1). unfold exec in IH.
    rewrite length_app. simpl in Hi. lia.
Qed.

Lemma length_concat_take {A} (ls : list (list A)) k :
  length (concat (take k ls)) <= length (concat ls).
Proof.
  rewrite <-(take_drop k ls) at 2. rewrite concat_app, length_app. lia.
Qed.

Lemma batches_take {A} (items : list A) k :
  map (fun i => slice items i (i + batch_size))
      (take k (py_range 0 (length items) batch_size)) = take k (batches items).
Proof. unfold batches. by rewrite <-fmap_take. Qed.

(** The turn of a batch that was submitted and got a clean reply. *)
Lemma loop_body_clean items total_docs i st data st1 :
  prepare_bulk_data' (slice items i (i + batch_size)) st = (Ok data, st1) ->
  clean_reply (requests_post i data) ->
  success_count (exec (loop_body' items total_docs i) st) =
  (success_count st + Z.of_nat (length (slice items i (i + batch_size))))%Z.
Proof.
  intros Hprep (text & o & Hreply & Hflag).
  pose proof (steadily_prepare_bulk_data (slice items i (i + batch_size)) st) as [Hc _].
  unfold exec in *. rewrite Hprep in Hc. simpl in Hc.
  unfold loop_body, try_except, bind. rewrite Hprep, Hreply.
  rewrite decide_True by done. simpl.
  unfold account, bind. simpl. rewrite Hflag. simpl. lia.
Qed.

(** C2. While the loop runs, that is after any number [k] of its turns,
    [success_count] is at most [total_docs]; and when every batch was
    submitted and got a reply with status 200 and the top-level [errors]
    flag unset, the loop ends with [success_count] equal to
    [total_docs]. *)
Theorem success_count_bounded items st :
  (forall k,
     (success_count (exec (bulk_index_upto' k items) st) <= Z.of_nat (length items))%Z) /\
  ((forall k i,
      py_range 0 (length items) batch_size !! k = Some i ->
      exists data st1,
        prepare_bulk_data' (slice items i (i + batch_size))
          (exec (bulk_index_upto' k items) st) = (Ok data, st1) /\
        clean_reply (requests_post i data)) ->
   success_count (exec (bulk_index' items) st) = Z.of_nat (length items)).
Proof.
  split.
  - intros k. rewrite exec_bulk_index_upto.
    pose proof (loop_adds_upto items (length items)
                  (take k (py_range 0 (length items) batch_size))
                  (State (heap st) (stdout st) 0%Z)) as H.
    rewrite batches_take in H. simpl in H.
    pose proof (length_concat_take (batches items) k) as Hle.
    rewrite concat_batches in Hle. lia.
  - intros Hclean.
    assert (forall k, k <= length (py_range 0 (length items) batch_size) ->
              success_count (exec (bulk_index_upto' k items) st) =
              Z.of_nat (length (concat (take k (batches items))))) as Hk.
    { induction k as [|k IH]; intros Hle; [done|].
      destruct (lookup_lt_is_Some_2 (py_range 0 (length items) batch_size) k)
        as [i Hi]; [lia|].
      destruct (Hclean k i Hi) as (data & st1 & Hprep & Hreply).
      rewrite (upto_succ _ _ _ _ Hi), (loop_body_clean _ _ _ _ _ _ Hprep Hreply).
      rewrite IH by lia.
      assert (batches items !! k = Some (slice items i (i + batch_size))) as Hb.
      { unfold batches. by rewrite list_lookup_fmap, Hi. }
      rewrite (take_S_r _ _ _ Hb), concat_app, length_app. simpl.
      rewrite app_nil_r. lia. }
    rewrite exec_bulk_index, Hk by done.
    rewrite take_ge; [by rewrite concat_batches|].
    unfold batches. by rewrite length_map.
Qed.

Lemma loop_body_prepare_raises items total_docs i st e st1 :
  prepare_bulk_data' (slice items i (i + batch_size)) st = (Raise e, st1) ->
  exists st', loop_body' items total_docs i st = (Ok tt, st') /\
              success_count st' = success_count st.
Proof.
  intros Hprep.
  pose proof (steadily_prepare_bulk_data (slice items i (i + batch_size)) st) as [Hc _].
  unfold exec in Hc. rewrite Hprep in Hc. simpl in Hc.
  unfold loop_body, try_except, bind. rewrite Hprep.
  eexists. split; [reflexivity|]. done.
Qed.

(** C4. When the submission of a batch fails at transport level (the
    request raises, or the status of the reply is not 200), the turn of
    that batch ends without an exception and leaves [success_count] as it
    was, and the loop carries on with the batches that follow from there;
    whatever the replies, the loop runs to its end. *)
Theorem transport_failure_skips_batch items total_docs i st data st1 :
  prepare_bulk_data' (slice items i (i + batch_size)) st = (Ok data, st1) ->
  transport_failure (requests_post i data) ->
  exists st',
    loop_body' items total_docs i st = (Ok tt, st') /\
    success_count st' = success_count st /\
    (forall rest,
       for_each (i :: rest) (loop_body' items total_docs) st =
       for_each rest (loop_body' items total_docs) st') /\
    (forall rest, exists st_end,
       for_each (i :: rest) (loop_body' items total_docs) st = (Ok tt, st_end)).
Proof.
  intros Hprep Hfail.
  pose proof (steadily_prepare_bulk_data (slice items i (i + batch_size)) st) as [Hc _].
  unfold exec in Hc. rewrite Hprep in Hc. simpl in Hc.
  assert (exists st', loop_body' items total_docs i st = (Ok tt, st') /\
                      success_count st' = success_count st) as (st' & Hrun & Hcount).
  { unfold loop_body, try_except, bind. rewrite Hprep.
    destruct (requests_post i data) as [e|status_code text json_body]; simpl in Hfail.
    - eexists. split; [reflexivity|]. done.
    - rewrite decide_False by done. eexists. split; [reflexivity|]. done. }
  exists st'. split_and!; [done..| |].
  - intros rest. simpl. unfold bind. by rewrite Hrun.
  - intros rest. apply loop_ok.
Qed.

Lemma prepare_items_raises bulk_data batch st l :
  VRef l ∈ batch -> lacks_metadata (heap st) l ->
  exists e st1, prepare_items' bulk_data batch st = (Raise e, st1).
Proof.
  revert bulk_data st. induction batch as [|item batch IH]; intros bulk_data st Hin Hl.
  { by apply elem_of_nil in Hin. }
  simpl. unfold bind at 1.
  apply elem_of_cons in Hin as [<-|Hin].
  - destruct Hl as (d & Hd & Hnone).
    unfold prepare_item, bind at 1.
    rewrite (preprocess_document_no_metadata _ _ _ Hd Hnone).
    unfold bind at 1, py_getitem. cbn [heap set_heap].
    rewrite lookup_insert_eq, Hnone. by eexists _, _.
  - pose proof (steadily_prepare_item bulk_data item st) as [_ Hkeep].
    unfold exec in Hkeep.
    destruct (prepare_item' bulk_data item st) as [[bulk_data'|e] st1]; [|by eexists _, _].
    apply IH; [done|]. by apply Hkeep.
Qed.

(** C10. When a record of the batch has no ["metadata"] key,
    [prepare_bulk_data] raises; the handler of the loop catches the
    exception, the turn ends normally and nothing is added to
    [success_count] for any record of the batch. *)
Theorem missing_metadata_fails_batch items total_docs i st l d :
  VRef l ∈ slice items i (i + batch_size) ->
  heap st !! l = Some d ->
  d !! "metadata" = None ->
  (exists e st1,
     prepare_bulk_data' (slice items i (i + batch_size)) st = (Raise e, st1)) /\
  (exists st',
     loop_body' items total_docs i st = (Ok tt, st') /\
     success_count st' = success_count st).
Proof.
  intros Hin Hd Hnone.
  destruct (prepare_items_raises [] _ st l Hin) as (e & st1 & Hraise); [by exists d|].
  assert (prepare_bulk_data' (slice items i (i + batch_size)) st = (Raise e, st1)) as Hprep.
  { unfold prepare_bulk_data, bind. by rewrite Hraise. }
  split; [by eexists _, _|]. by eapply loop_body_prepare_raises.
Qed.

End JobProperties.

(** ** A reply with the errors flag set, when the reporting runs through *)






(** ** The batch loop on concrete runs *)

(** C3. A batch of 50 records gets a reply with status 200, the [errors]
    flag set, 48 items with status 201 and 2 items with status 400; the
    [error] of the second failure is a string.  The turn computes 48
    succeeded records and prints them (line 266), reports the two failures
    (lines 278 and 282), and then line 290 calls [.get] on the string: the
    exception goes to the handler of the loop before line 297 is reached,
    and [success_count] stays 0 where 48 were to be added. *)
Theorem string_error_loses_batch :
  let items := example_items 50 in
  let reply := reply_with (replicate 48 indexed_item ++ [failed_item; failed_item_text]) in
  let st' :=
    exec (loop_body example_format example_dumps_action example_dumps_doc (engine reply)
            items 50 0) (st0 (example_heap 50)) in
  length (slice items 0 (0 + batch_size)) = 50 /\
  select_errors (replicate 48 indexed_item ++ [failed_item; failed_item_text])
    = Ok [failed_item; failed_item_text] /\
  success_count st' = 0%Z /\
  stdout st' =
    [ PrIndexedWithErrors 1 1 48 50 2;
      PrErrorDetail 1 (JStr "PP__2001") (JStr "mapper_parsing_exception")
        (JStr "failed to parse");
      PrErrorOther 2 (JStr "PP__2001") (JStr "MapperParsingException[failed to parse]");
      PrBatchException 1 AttributeError;
      PrTraceback AttributeError ].
Proof. by vm_compute. Qed.

(** The same batch and reply with both failures reported as objects: 48 is
    added. *)
Example object_errors_counted :
  let items := example_items 50 in
  let reply := reply_with (replicate 48 indexed_item ++ [failed_item; failed_item]) in
  let st' :=
    exec (loop_body example_format example_dumps_action example_dumps_doc (engine reply)
            items 50 0) (st0 (example_heap 50)) in
  success_count st' = 48%Z /\
  stdout st' =
    [ PrIndexedWithErrors 1 1 48 50 2;
      PrErrorDetail 1 (JStr "PP__2001") (JStr "mapper_parsing_exception")
        (JStr "failed to parse");
      PrErrorDetail 2 (JStr "PP__2001") (JStr "mapper_parsing_exception")
        (JStr "failed to parse");
      PrErrorSummaryHeader;
      PrErrorSummary (JStr "mapper_parsing_exception") 2 ].
Proof. by vm_compute. Qed.

Lemma success_count_bounded_witness :
  success_count
    (exec (bulk_index example_format example_dumps_action example_dumps_doc
             (engine clean_response) (example_items 1)) (st0 (example_heap 1)))
  = 1%Z.
Proof.
  apply (proj2 (success_count_bounded example_format example_dumps_action
                  example_dumps_doc (engine clean_response)
                  (example_items 1) (st0 (example_heap 1)))).
  intros [|k] i Hi; [|done]. injection Hi as <-.
  eexists _, _. split; [vm_compute; reflexivity|].
  eexists _, _. split; [reflexivity|done].
Defined.

Lemma transport_failure_skips_batch_witness :
  exists st',
    loop_body example_format example_dumps_action example_dumps_doc
      (engine (PostResponse 503%Z "unavailable" (Raise (LibraryError "JSONDecodeError"))))
      (example_items 1) 1 0 (st0 (example_heap 1)) = (Ok tt, st') /\
    success_count st' = 0%Z.
Proof.
  edestruct (transport_failure_skips_batch example_format example_dumps_action
               example_dumps_doc
               (engine (PostResponse 503%Z "unavailable"
                          (Raise (LibraryError "JSONDecodeError"))))
               (example_items 1) 1 0 (st0 (example_heap 1)))
    as (st' & Hrun & Hcount & _).
  - vm_compute. reflexivity.
  - simpl. lia.
  - exists st'. by split.
Defined.

Lemma missing_metadata_fails_batch_witness :
  exists st',
    loop_body example_format example_dumps_action example_dumps_doc
      (engine clean_response)
      (example_items 1 ++ [VRef 9%positive]) 2 0
      (st0 (<[9%positive := {[ "abstrak" := VStr "tanpa metadata" ]}]> (example_heap 1)))
    = (Ok tt, st') /\
    success_count st' = 0%Z.
Proof.
  edestruct (missing_metadata_fails_batch example_format example_dumps_action
               example_dumps_doc (engine clean_response)
               (example_items 1 ++ [VRef 9%positive]) 2 0
               (st0 (<[9%positive := {[ "abstrak" := VStr "tanpa metadata" ]}]>
                       (example_heap 1)))
               9%positive {[ "abstrak" := VStr "tanpa metadata" ]})
    as [_ (st' & Hrun & Hcount)].
  - vm_compute. apply elem_of_cons. right. by left.
  - reflexivity.
  - reflexivity.
  - exists st'. by split.
Defined.

(** * Further properties of the code *)

(** ** Steps that preserve a relation on states *)

Section Preserved.

Variable R : state -> state -> Prop.
Hypothesis R_refl : forall st, R st st.
Hypothesis R_trans : forall st1 st2 st3, R st1 st2 -> R st2 st3 -> R st1 st3.

Lemma preserved_ret {A} (a : A) : preserved R (ret a).
Proof. intros st. apply R_refl. Qed.

Lemma preserved_raise {A} e : preserved R (@raise A e).
Proof. intros st. apply R_refl. Qed.

Lemma preserved_of_result {A} (r : result A) : preserved R (of_result r).
Proof. destruct r; [apply preserved_ret|apply preserved_raise]. Qed.

Lemma preserved_bind {A B} (m : M A) (k : A -> M B) :
  preserved R m -> (forall a, preserved R (k a)) -> preserved R (bind m k).
Proof.
  intros Hm Hk st. specialize (Hm st). unfold exec, bind in *.
  destruct (m st) as [[a|e] st1]; [|done].
  eapply R_trans; [done|apply Hk].
Qed.

Lemma preserved_try {A} (body : M A) handler :
  preserved R body -> (forall e, preserved R (handler e)) ->
  preserved R (try_except body handler).
Proof.
  intros Hm Hk st. specialize (Hm st). unfold exec, try_except in *.
  destruct (body st) as [[a|e] st1]; [done|].
  eapply R_trans; [done|apply Hk].
Qed.

Lemma preserved_for_each {A} (xs : list A) body :
  (forall x, x ∈ xs -> preserved R (body x)) -> preserved R (for_each xs body).
Proof.
  induction xs as [|x xs IH]; intros Hbody; simpl; [apply preserved_ret|].
  apply preserved_bind; [apply Hbody; by left|].
  intros _. apply IH. intros y Hy. apply Hbody. by right.
Qed.

Lemma preserved_py_contains key c : preserved R (py_contains key c).
Proof.
  intros st. unfold exec, py_contains.
  destruct c; try apply R_refl. destruct (heap st !! _); apply R_refl.
Qed.

Lemma preserved_py_getitem c key : preserved R (py_getitem c key).
Proof.
  intros st. unfold exec, py_getitem.
  destruct c; try apply R_refl.
  destruct (heap st !! _) as [d|]; [destruct (d !! key)|]; apply R_refl.
Qed.

Lemma preserved_py_get c key dflt : preserved R (py_get c key dflt).
Proof.
  intros st. unfold exec, py_get.
  destruct c; try apply R_refl. destruct (heap st !! _); apply R_refl.
Qed.

End Preserved.

(** ** The heap under the normaliser and under the whole loop *)

Lemma heap_kept_refl st : heap_kept st st.
Proof. intros l d Hd. by exists d. Qed.

Lemma heap_kept_trans st1 st2 st3 : heap_kept st1 st2 -> heap_kept st2 st3 -> heap_kept st1 st3.
Proof.
  intros H12 H23 l d Hd.
  destruct (H12 l d Hd) as (d2 & Hd2 & Heq2).
  destruct (H23 l d2 Hd2) as (d3 & Hd3 & Heq3).
  exists d3. split; [done|]. intros key Hkey. by rewrite Heq3, Heq2.
Qed.

Lemma heap_kept_same_heap st st' : heap st' = heap st -> heap_kept st st'.
Proof. intros Heq l d Hd. exists d. by rewrite Heq. Qed.

Lemma heap_kept_update st l d d' :
  heap st !! l = Some d ->
  (forall key, key ∉ date_fields -> d' !! key = d !! key) ->
  heap_kept st (set_heap (<[l := d']> (heap st)) st).
Proof.
  intros Hl Hsame l0 d0 Hd0. cbn [heap set_heap].
  destruct (decide (l = l0)) as [->|Hne].
  - exists d'. rewrite lookup_insert_eq. split; [done|].
    rewrite Hl in Hd0. by injection Hd0 as <-.
  - exists d0. by rewrite lookup_insert_ne.
Qed.

Lemma heap_kept_py_pop c f : f ∈ date_fields -> preserved heap_kept (py_pop c f).
Proof.
  intros Hf st. unfold exec, py_pop.
  destruct c; try apply heap_kept_refl.
  destruct (heap st !! l) as [d|] eqn:Hl; [|apply heap_kept_refl].
  apply (heap_kept_update _ _ d); [done|].
  intros key Hkey. apply lookup_delete_ne. congruence.
Qed.

Lemma heap_kept_py_setitem c f v : f ∈ date_fields -> preserved heap_kept (py_setitem c f v).
Proof.
  intros Hf st. unfold exec, py_setitem.
  destruct c; try apply heap_kept_refl.
  destruct (heap st !! l) as [d|] eqn:Hl; [|apply heap_kept_refl].
  apply (heap_kept_update _ _ d); [done|].
  intros key Hkey. apply lookup_insert_ne. congruence.
Qed.

Lemma heap_kept_py_copy doc : preserved heap_kept (py_copy doc).
Proof.
  intros st. unfold exec, py_copy.
  destruct doc; try apply heap_kept_refl.
  destruct (heap st !! l) as [d|] eqn:Hl; [|apply heap_kept_refl].
  intros l0 d0 Hd0. cbn [snd heap set_heap]. exists d0. split; [|done].
  rewrite lookup_insert_ne; [done|]. intros <-.
  assert (heap st !! fresh (dom (heap st)) = None) as Hfresh.
  { apply not_elem_of_dom, is_fresh. }
  congruence.
Qed.

Lemma heap_kept_print l : preserved heap_kept (print l).
Proof. intros st. by apply heap_kept_same_heap. Qed.

Ltac kept_step :=
  match goal with
  | |- preserved _ (bind _ _) =>
      apply preserved_bind; [apply heap_kept_trans| |intros ?]
  | |- preserved _ (try_except _ _) =>
      apply preserved_try; [apply heap_kept_trans| |intros ?]
  | |- preserved _ (ret _) => apply preserved_ret, heap_kept_refl
  | |- preserved _ (raise _) => apply preserved_raise, heap_kept_refl
  | |- preserved _ (of_result _) => apply preserved_of_result, heap_kept_refl
  | |- preserved _ (py_contains _ _) => apply preserved_py_contains, heap_kept_refl
  | |- preserved _ (py_getitem _ _) => apply preserved_py_getitem, heap_kept_refl
  | |- preserved _ (py_get _ _ _) => apply preserved_py_get, heap_kept_refl
  | |- preserved _ (print _) => apply heap_kept_print
  | |- preserved _ (py_copy _) => apply heap_kept_py_copy
  | |- preserved _ (py_pop _ _) => by apply heap_kept_py_pop
  | |- preserved _ (py_setitem _ _ _) => by apply heap_kept_py_setitem
  | |- preserved _ (if ?b then _ else _) => destruct b
  | |- preserved _ (match ?x with _ => _ end) => destruct x
  end.

Lemma heap_kept_process_date_field doc f :
  f ∈ date_fields -> preserved heap_kept (process_date_field doc f).
Proof. intros Hf. unfold process_date_field. repeat kept_step. Qed.

Lemma heap_kept_preprocess_document doc : preserved heap_kept (preprocess_document doc).
Proof.
  unfold preprocess_document. repeat kept_step.
  apply preserved_for_each; [apply heap_kept_refl|apply heap_kept_trans|].
  intros f Hf. by apply heap_kept_process_date_field.
Qed.

(** X1. Whatever it is given, and whether it returns or raises,
    [preprocess_document] removes no dict and changes no entry of any dict
    that existed before the call, other than the entries of the three date
    fields; [success_count] is as before. *)
Theorem preprocess_document_frame doc st :
  heap_kept st (exec (preprocess_document doc) st) /\
  success_count (exec (preprocess_document doc) st) = success_count st.
Proof.
  split; [apply heap_kept_preprocess_document|apply steadily_preprocess_document].
Qed.

Lemma stdout_preprocess_document doc st :
  stdout (exec (preprocess_document doc) st) = stdout st.
Proof.
  assert (forall doc' f st1,
            stdout (exec (process_date_field doc' f) st1) = stdout st1) as Hfield.
  { intros doc' f st1.
    unfold exec, process_date_field, bind, try_except, py_getitem, py_contains,
      py_pop, py_setitem, is_unusable, ret, raise.
    repeat (case_match; simplify_eq/=; try done). }
  assert (forall doc' fs st1,
            stdout (exec (for_each fs (process_date_field doc')) st1) = stdout st1) as Hfields.
  { intros doc'. induction fs as [|f fs IH]; intros st1; [done|].
    specialize (Hfield doc' f st1). unfold exec in *. simpl. unfold bind.
    destruct (process_date_field doc' f st1) as [[[]|e] st2]; [|done].
    simpl in Hfield. by rewrite IH. }
  unfold exec, preprocess_document, bind, py_copy, py_contains, ret.
  destruct doc; try done.
  - simpl. destruct (existsb _ l); [|done].
    specialize (Hfields (VList l) date_fields st). unfold exec in Hfields.
    by destruct (for_each date_fields _ st) as [[[]|e] st2].
  - destruct (heap st !! l) as [d|] eqn:Hl; [|done].
    cbn [heap set_heap]. rewrite lookup_insert_eq.
    destruct (bool_decide _); [|done].
    match goal with
    | |- context [for_each date_fields (process_date_field ?c) ?s] =>
        pose proof (Hfields c date_fields s) as H; unfold exec in H;
        destruct (for_each date_fields (process_date_field c) s) as [[[]|e] st2]
    end; done.
Qed.

(** X2. The warning of line 98 is never printed: on no input does
    [preprocess_document] print anything.  The handler of lines 96-99 runs
    only if the [try] block raises, and once [date_value] is a non-empty
    string taken from a dict nothing in the block can. *)
Theorem preprocess_document_prints_nothing doc st :
  stdout (exec (preprocess_document doc) st) = stdout st.
Proof. apply stdout_preprocess_document. Qed.

(** ** [preprocess_document] on values of the wrong type *)

(** X3. A record that is not a dict but [None], a bool, a number or a
    string makes the call raise [AttributeError] at [doc.copy()], in an
    untouched state; and a dict record whose ["metadata"] entry is [None], a
    bool or a number makes it raise [TypeError] at the first
    [date_field in ...] test, every object that existed being as before. *)
Theorem preprocess_document_wrong_types :
  (forall st doc,
     match doc with VList _ | VRef _ => False | _ => True end ->
     preprocess_document doc st = (Raise AttributeError, st)) /\
  (forall st doc d mv,
     heap st !! doc = Some d ->
     d !! "metadata" = Some mv ->
     match mv with VNone | VBool _ | VInt _ => True | _ => False end ->
     exists st',
       preprocess_document (VRef doc) st = (Raise TypeError, st') /\
       forall l, l ∈ dom (heap st) -> heap st' !! l = heap st !! l).
Proof.
  split.
  - intros st doc Hdoc. by destruct doc.
  - intros st doc d mv Hdoc Hmeta Hmv.
    assert (heap st !! fresh (dom (heap st)) = None) as Hfresh.
    { apply not_elem_of_dom, is_fresh. }
    exists (set_heap (<[fresh (dom (heap st)) := d]> (heap st)) st). split.
    + unfold preprocess_document, bind at 1, py_copy. rewrite Hdoc.
      unfold bind at 1, py_contains. cbn [heap set_heap].
      rewrite lookup_insert_eq, Hmeta, bool_decide_true by eauto.
      unfold bind at 1. simpl. unfold bind at 1, process_date_field, bind at 1, py_getitem.
      cbn [heap set_heap]. rewrite lookup_insert_eq, Hmeta.
      unfold bind at 1. by destruct mv.
    + intros l Hl. cbn [heap set_heap]. apply lookup_insert_ne.
      intros <-. apply elem_of_dom in Hl as [? ?]. congruence.
Qed.

Lemma preprocess_document_wrong_types_witness :
  preprocess_document (VStr "bukan dokumen") (st0 ∅)
    = (Raise AttributeError, st0 ∅) /\
  exists st',
    preprocess_document (VRef 1%positive) (st0 {[ 1%positive := {[ "metadata" := VNone ]} ]})
      = (Raise TypeError, st').
Proof.
  destruct preprocess_document_wrong_types as [Hdoc Hmeta]. split.
  - by apply Hdoc.
  - destruct (Hmeta (st0 {[ 1%positive := {[ "metadata" := VNone ]} ]}) 1%positive
                {[ "metadata" := VNone ]} VNone) as (st' & Hrun & _);
      [reflexivity..|done|by exists st'].
Defined.

(** ** Whitespace and [strip] *)

Section Strip.
Import PyStr.
Implicit Types (s t : chars).

Lemma lstrip_clean s : starts_clean s -> lstrip s = s.
Proof. destruct s as [|c s]; [done|]. simpl. by intros ->. Qed.

Lemma lstrip_starts_clean s : starts_clean (lstrip s).
Proof.
  induction s as [|c s IH]; [done|]. simpl.
  by destruct (is_space c) eqn:Hc.
Qed.

Lemma lstrip_split s : exists pre, s = pre ++ lstrip s /\ blank pre.
Proof.
  induction s as [|c s (pre & Hs & Hpre)].
  { exists []. split; [done|constructor]. }
  simpl. destruct (is_space c) eqn:Hc.
  - exists (c :: pre). split; [by rewrite Hs at 1|by constructor].
  - exists []. split; [done|constructor].
Qed.

Lemma lstrip_blank s : blank s -> lstrip s = [].
Proof. induction 1 as [|c s Hc _ IH]; [done|]. simpl. by rewrite Hc. Qed.

Lemma starts_clean_blank s : starts_clean s -> blank s -> s = [].
Proof. destruct s as [|c s]; [done|]. simpl. intros Hc Hb. inversion Hb. congruence. Qed.

Lemma starts_clean_rev_last s :
  starts_clean (rev s) <-> forall x, last s = Some x -> is_space x = false.
Proof.
  destruct s as [|c s _] using rev_ind; [done|].
  rewrite rev_unit, last_snoc. simpl. split; [by intros ? ? [= <-]|auto].
Qed.

Lemma rstrip_split s : exists post, s = rstrip s ++ post /\ blank post.
Proof.
  unfold rstrip. destruct (lstrip_split (rev s)) as (pre & Hs & Hpre).
  exists (rev pre). split.
  - rewrite <-rev_app_distr, <-Hs. by rewrite rev_involutive.
  - unfold blank in *. rewrite Forall_forall in *. intros c Hc. apply Hpre.
    apply list_elem_of_In, in_rev. by apply list_elem_of_In.
Qed.

Lemma strip_trimmed s : trimmed (strip s).
Proof.
  unfold strip. split.
  - destruct (rstrip_split (lstrip s)) as (post & Hs & _).
    pose proof (lstrip_starts_clean s) as Hclean. rewrite Hs in Hclean.
    by destruct (rstrip (lstrip s)).
  - unfold rstrip. rewrite rev_involutive. apply lstrip_starts_clean.
Qed.

Lemma trimmed_strip s : trimmed s -> strip s = s.
Proof.
  intros [Hl Hr]. unfold strip, rstrip.
  by rewrite (lstrip_clean s), (lstrip_clean (rev s)), rev_involutive.
Qed.

Lemma strip_split s : exists pre post, s = pre ++ strip s ++ post /\ blank pre /\ blank post.
Proof.
  destruct (lstrip_split s) as (pre & Hs & Hpre).
  destruct (rstrip_split (lstrip s)) as (post & Ht & Hpost).
  exists pre, post. split_and!; [|done..]. unfold strip. by rewrite <-Ht.
Qed.

Lemma strip_nil_blank s : strip s = [] <-> blank s.
Proof.
  split.
  - intros Hnil. destruct (strip_split s) as (pre & post & Hs & Hpre & Hpost).
    rewrite Hs, Hnil. by apply Forall_app.
  - intros Hb. unfold strip. by rewrite lstrip_blank.
Qed.

Lemma is_upper_not_space c : is_upper c = true -> is_space c = false.
Proof. destruct c as [[] [] [] [] [] [] [] []]; by vm_compute. Qed.

End Strip.

(** ** The converted date *)

Section ConvertDate.
Import PyStr.
Implicit Types (s t r w seg : chars) (K : list (string * string)).

Lemma substitute_nonempty K c s : entries_ok K -> substitute_go 0 K (c :: s) <> [].
Proof.
  intros HK. rewrite substitute_cons by done.
  destruct (month_at K (c :: s)) as [e|] eqn:He; [|done].
  apply month_at_Some in He as [He _].
  by destruct (entries_ok_elem _ _ HK He) as [_ (u & t & -> & _)].
Qed.

Lemma substitute_starts_clean K s :
  entries_ok K -> starts_clean s -> starts_clean (substitute_go 0 K s).
Proof.
  intros HK Hs. destruct s as [|c s]; [done|]. rewrite substitute_cons by done.
  destruct (month_at K (c :: s)) as [e|] eqn:He; [|done].
  apply month_at_Some in He as [He _].
  destruct (entries_ok_elem _ _ HK He) as [_ (u & t & -> & Hu & _)].
  simpl. by apply is_upper_not_space.
Qed.

Lemma last_drop {A} (l : list A) n x : last (drop n l) = Some x -> last l = Some x.
Proof.
  intros Hx. rewrite <-(take_drop n l), last_app. by rewrite Hx.
Qed.

(** The last character of the result is the last character of the input or
    the last character of a counterpart. *)
Lemma substitute_last K s x :
  entries_ok K ->
  last (substitute_go 0 K s) = Some x ->
  last s = Some x \/ exists e, e ∈ K /\ last (of_string e.2) = Some x.
Proof.
  intros HK. remember (length s) as n eqn:Hn. revert s Hn.
  induction n as [n IH] using lt_wf_ind. intros s Hn.
  destruct s as [|c s]; [done|]. rewrite substitute_cons by done.
  destruct (month_at K (c :: s)) as [e|] eqn:He.
  - apply month_at_Some in He as [He Hsw].
    destruct (entries_ok_elem _ _ HK He) as [(u & t & Hkey & _) _].
    rewrite last_app.
    destruct (last (substitute_go 0 K (drop (length (of_string e.1)) (c :: s))))
      as [y|] eqn:Hy.
    + intros [= ->].
      apply (IH (length (drop (length (of_string e.1)) (c :: s)))) in Hy as [Hy|Hy];
        [left; by eapply last_drop|by right| |done].
      rewrite length_drop, Hkey, Hn. simpl. lia.
    + intros Hx. right. eauto.
  - destruct s as [|c' s]; [by left|].
    rewrite last_cons.
    destruct (last (substitute_go 0 K (c' :: s))) as [y|] eqn:Hy.
    + intros [= ->]. apply (IH (length (c' :: s))) in Hy as [Hy|Hy];
        [left; by rewrite last_cons_cons|by right|simpl in *; lia|done].
    + apply last_None in Hy. by apply substitute_nonempty in Hy.
Qed.

Lemma substitute_trimmed K s :
  entries_ok K -> ends_cleanb K = true ->
  trimmed s -> trimmed (substitute_go 0 K s).
Proof.
  intros HK Hends [Hl Hr]. split; [by apply substitute_starts_clean|].
  apply starts_clean_rev_last. intros x Hx.
  destruct (substitute_last K s x HK Hx) as [Hx'|(e & He & Hx')].
  - by eapply starts_clean_rev_last.
  - unfold ends_cleanb in Hends. rewrite forallb_forall in Hends.
    apply list_elem_of_In in He. specialize (Hends e He). rewrite Hx' in Hends.
    by apply negb_true_iff.
Qed.

Lemma stableb_spec K e e' :
  stableb K = true -> e ∈ K -> e' ∈ K ->
  clash (of_string e'.1) (of_string e.2) = true -> e'.1 = e'.2.
Proof.
  unfold stableb. rewrite forallb_forall. intros HK He He' Hclash.
  apply list_elem_of_In in He, He'. specialize (HK e He).
  rewrite forallb_forall in HK. specialize (HK e' He').
  rewrite Hclash in HK. simpl in HK. by apply String.eqb_eq.
Qed.

Lemma segment_image_idem K seg :
  stableb K = true ->
  segment_image K (segment_image K seg) = segment_image K seg.
Proof.
  intros HK. unfold segment_image at 2 3.
  destruct (month_at K seg) as [e|] eqn:He.
  - apply month_at_Some in He as [He _].
    set (X := of_string e.2 ++ drop (length (of_string e.1)) seg).
    unfold segment_image. destruct (month_at K X) as [e'|] eqn:He'; [|done].
    apply month_at_Some in He' as [He' Hsw].
    pose proof (starts_with_clash _ _ _ Hsw) as Hclash.
    rewrite <-(stableb_spec K e e' HK He He' Hclash).
    apply starts_with_spec in Hsw as [q ->]. by rewrite drop_app_length.
  - unfold segment_image. by rewrite He.
Qed.

(** Substituting in a substituted string changes nothing. *)
Lemma substitute_idem K s :
  entries_ok K -> stableb K = true ->
  substitute_go 0 K (substitute_go 0 K s) = substitute_go 0 K s.
Proof.
  intros HK Hstable.
  remember (length s) as n eqn:Hn. revert s Hn.
  induction n as [n IH] using lt_wf_ind. intros s Hn.
  destruct s as [|c s]; [done|].
  destruct (is_upper c) eqn:Hc.
  - destruct (lower_split s) as (t & r & -> & Ht & Hr).
    rewrite app_comm_cons, substitute_segment by done.
    assert (capitalized (segment_image K (c :: t))) as (u' & t' & Himg & Hu' & Ht').
    { apply capitalized_segment_image; [done|]. by exists c, t. }
    pose proof (segment_image_idem K (c :: t) Hstable) as Hidem.
    rewrite Himg in *.
    rewrite substitute_segment; [|done..|by apply head_ok_substitute].
    rewrite Hidem. f_equal.
    apply (IH (length r)); [|done]. simpl in Hn. rewrite length_app in Hn. lia.
  - rewrite substitute_cons, month_at_lower by done.
    rewrite substitute_cons, month_at_lower by done. f_equal.
    apply (IH (length s)); [|done]. simpl in Hn. lia.
Qed.

Lemma contains_lowers k t X :
  capitalized k -> lowers t -> contains k (t ++ X) = contains k X.
Proof.
  intros (u & w & -> & Hu & _) Ht. induction Ht as [|c t Hc _ IH]; [done|].
  simpl. rewrite decide_False by congruence. by rewrite IH.
Qed.

Lemma starts_with_lowers_substitute K w s :
  entries_ok K -> lowers w ->
  starts_with w (substitute_go 0 K s) = starts_with w s.
Proof.
  intros HK Hw. revert s. induction Hw as [|a w Ha _ IH]; intros s; [done|].
  destruct s as [|c s]; [done|]. rewrite substitute_cons by done.
  destruct (is_upper c) eqn:Hc.
  - destruct (month_at K (c :: s)) as [e|] eqn:He; simpl.
    + apply month_at_Some in He as [He _].
      destruct (entries_ok_elem _ _ HK He) as [_ (u & t & -> & Hu & _)].
      simpl. by rewrite !decide_False by congruence.
    + by rewrite !decide_False by congruence.
  - rewrite month_at_lower by done. simpl. case_decide; [apply IH|done].
Qed.

Lemma month_at_found K e s :
  e ∈ K -> starts_with (of_string e.1) s = true -> month_at K s <> None.
Proof.
  induction K as [|e0 K IH]; intros He Hsw; [by apply elem_of_nil in He|].
  simpl. destruct (starts_with (of_string e0.1) s) eqn:H0; [done|].
  apply elem_of_cons in He as [->|He]; [congruence|by apply IH].
Qed.

(** A month name that is not spelled like its counterpart does not occur in
    a substituted string. *)
Lemma substitute_removes K e s :
  entries_ok K -> stableb K = true ->
  e ∈ K -> e.1 <> e.2 ->
  contains (of_string e.1) (substitute_go 0 K s) = false.
Proof.
  intros HK Hstable He Hne.
  destruct (entries_ok_elem _ _ HK He) as [Hkey _].
  remember (length s) as n eqn:Hn. revert s Hn.
  induction n as [n IH] using lt_wf_ind. intros s Hn.
  destruct s as [|c s].
  { destruct Hkey as (u & w & Hk & _). simpl. by rewrite Hk. }
  rewrite substitute_cons by done.
  destruct (month_at K (c :: s)) as [e0|] eqn:He0.
  - pose proof He0 as [He0in _]%month_at_Some.
    destruct (entries_ok_elem _ _ HK He0in) as [(u0 & t0 & Hk0 & _) (u' & t' & Hval & _ & Ht')].
    rewrite Hval. cbn [app contains].
    rewrite contains_lowers by done.
    rewrite (IH (length (drop (length (of_string e0.1)) (c :: s)))); [|..|done].
    + rewrite orb_false_r.
      destruct (starts_with (of_string e.1) (u' :: t' ++ _)) eqn:Hsw; [|done].
      rewrite app_comm_cons, <-Hval in Hsw. apply starts_with_clash in Hsw.
      by apply (stableb_spec K e0 e Hstable He0in He) in Hsw.
    + rewrite length_drop, Hk0, Hn. simpl. lia.
  - cbn [contains]. rewrite (IH (length s)); [|simpl in Hn; lia|done].
    rewrite orb_false_r.
    destruct (starts_with (of_string e.1) (c :: substitute_go 0 K s)) eqn:Hsw; [|done].
    exfalso. apply (month_at_found K e (c :: s) He); [|done].
    destruct Hkey as (u & w & Hk & _ & Hw). rewrite Hk in *. simpl in *.
    case_decide; [|done]. by rewrite starts_with_lowers_substitute in Hsw.
Qed.

Lemma id_month_mapping_stable : stableb id_month_mapping = true.
Proof. by vm_compute. Qed.

Lemma id_month_mapping_ends_clean : ends_cleanb id_month_mapping = true.
Proof. by vm_compute. Qed.

Lemma convert_date_chars date_value :
  of_string (convert_date date_value) = substitute_months (strip (of_string date_value)).
Proof.
  rewrite convert_date_one_pass. unfold trimmed_and_substituted, to_string, of_string.
  apply list_ascii_of_string_of_list_ascii.
Qed.

End ConvertDate.

Lemma convert_date_idem date_value :
  convert_date (convert_date date_value) = convert_date date_value.
Proof.
  rewrite (convert_date_one_pass (convert_date date_value)).
  unfold trimmed_and_substituted. rewrite convert_date_chars.
  rewrite convert_date_one_pass. unfold trimmed_and_substituted. f_equal.
  unfold substitute_months.
  rewrite trimmed_strip.
  - apply substitute_idem; [apply id_month_mapping_ok|apply id_month_mapping_stable].
  - apply substitute_trimmed;
      [apply id_month_mapping_ok|apply id_month_mapping_ends_clean|apply strip_trimmed].
Qed.

(** X4. Converting a converted date changes nothing: the loop of lines
    92-94 puts out no month name that it would replace again, and no
    whitespace at the ends that [strip] would remove. *)
Theorem convert_date_idempotent date_value :
  convert_date (convert_date date_value) = convert_date date_value.
Proof. apply convert_date_idem. Qed.

Lemma convert_date_is_trimmed date_value :
  trimmed (PyStr.of_string (convert_date date_value)).
Proof.
  rewrite convert_date_chars. apply substitute_trimmed;
    [apply id_month_mapping_ok|apply id_month_mapping_ends_clean|apply strip_trimmed].
Qed.

Lemma convert_date_empty_iff date_value :
  convert_date date_value = "" <-> blank (PyStr.of_string date_value).
Proof.
  rewrite <-strip_nil_blank. split.
  - intros Hempty. pose proof (convert_date_chars date_value) as Hchars.
    rewrite Hempty in Hchars. unfold substitute_months in Hchars.
    destruct (PyStr.strip (PyStr.of_string date_value)) as [|c t]; [done|].
    symmetry in Hchars. by apply substitute_nonempty in Hchars; [|apply id_month_mapping_ok].
  - intros Hnil. rewrite convert_date_one_pass. unfold trimmed_and_substituted.
    by rewrite Hnil.
Qed.

(** X5. The converted date has no whitespace at either end, and it is the
    empty string exactly when the value consists of whitespace only. *)
Theorem convert_date_trimmed date_value :
  trimmed (PyStr.of_string (convert_date date_value)) /\
  (convert_date date_value = "" <-> blank (PyStr.of_string date_value)).
Proof. split; [apply convert_date_is_trimmed|apply convert_date_empty_iff]. Qed.

(** X6. After the conversion none of the nine Indonesian month names that
    differ from their English counterparts occurs in the date. *)
Theorem convert_date_leaves_no_month id_month en_month date_value :
  (id_month, en_month) ∈ id_month_mapping ->
  id_month <> en_month ->
  PyStr.contains (PyStr.of_string id_month) (PyStr.of_string (convert_date date_value))
    = false.
Proof.
  intros Hin Hne. rewrite convert_date_chars.
  by apply (substitute_removes id_month_mapping (id_month, en_month));
    [apply id_month_mapping_ok|apply id_month_mapping_stable|..].
Qed.

Lemma convert_date_leaves_no_month_witness :
  PyStr.contains (PyStr.of_string "Mei")
    (PyStr.of_string (convert_date "  1 Mei 2020, diubah 3 Meiji ")) = false.
Proof.
  apply (convert_date_leaves_no_month "Mei" "May").
  - unfold id_month_mapping. do 4 (apply elem_of_cons; right). by left.
  - discriminate.
Defined.

(** X7. A value in which no month name of the mapping occurs is only
    trimmed: a date such as [" 2020-05-17 "] is stored as ["2020-05-17"]. *)
Theorem convert_date_without_month date_value :
  (forall entry, entry ∈ id_month_mapping ->
     PyStr.contains (PyStr.of_string entry.1)
       (PyStr.strip (PyStr.of_string date_value)) = false) ->
  convert_date date_value = PyStr.to_string (PyStr.strip (PyStr.of_string date_value)).
Proof.
  intros Hnone. unfold convert_date. f_equal.
  generalize dependent (PyStr.strip (PyStr.of_string date_value)).
  induction id_month_mapping as [|e K IH]; intros t Hnone; [done|].
  simpl. unfold replace_month at 2. rewrite Hnone by left.
  apply IH. intros e' He'. apply Hnone. by right.
Qed.

Lemma convert_date_without_month_witness :
  convert_date " 2020-05-17 " = "2020-05-17".
Proof.
  rewrite convert_date_without_month; [reflexivity|].
  intros entry Hin. unfold id_month_mapping in Hin.
  repeat (apply elem_of_cons in Hin as [->|Hin]; [reflexivity|]).
  by apply elem_of_nil in Hin.
Defined.

(** ** Normalising a record twice *)

Lemma normalize_metadata_idem md :
  (forall f s, f ∈ date_fields -> md !! f = Some (VStr s) ->
               blank (PyStr.of_string s) -> s = "") ->
  normalize_metadata (normalize_metadata md) = normalize_metadata md.
Proof.
  intros Hblank. apply map_eq. intros g.
  rewrite !normalize_metadata_lookup.
  destruct (decide (g ∈ date_fields)) as [Hg|]; [|done].
  unfold field_after. destruct (md !! g) as [[| | |s| |]|] eqn:Hmd; try done.
  destruct (decide (s = "")) as [|Hs]; [done|].
  destruct (decide (convert_date s = "")) as [Hempty|_].
  - apply convert_date_empty_iff in Hempty. by apply (Hblank g s Hg Hmd) in Hempty.
  - by rewrite convert_date_idem.
Qed.

Lemma preprocess_document_again st doc d m md :
  heap st !! doc = Some d ->
  d !! "metadata" = Some (VRef m) ->
  heap st !! m = Some md ->
  exists p st1 p2 st2,
    preprocess_document (VRef doc) st = (Ok (VRef p), st1) /\
    preprocess_document (VRef p) st1 = (Ok (VRef p2), st2) /\
    heap st1 !! m = Some (normalize_metadata md) /\
    heap st2 !! m = Some (normalize_metadata (normalize_metadata md)).
Proof.
  intros Hdoc Hmeta Hm.
  assert (heap st !! fresh (dom (heap st)) = None) as Hfresh.
  { apply not_elem_of_dom, is_fresh. }
  set (p := fresh (dom (heap st))) in *.
  set (st1 := set_heap (<[m := normalize_metadata md]> (<[p := d]> (heap st))) st).
  assert (heap st1 !! p = Some d) as Hp.
  { cbn [st1 heap set_heap]. rewrite lookup_insert_ne by congruence.
    apply lookup_insert_eq. }
  assert (heap st1 !! m = Some (normalize_metadata md)) as Hm1.
  { cbn [st1 heap set_heap]. apply lookup_insert_eq. }
  exists p, st1. eexists _, _. split_and!.
  - by apply preprocess_document_dict.
  - by apply (preprocess_document_dict st1 p d m (normalize_metadata md)).
  - done.
  - cbn [heap set_heap]. apply lookup_insert_eq.
Qed.

(** X8. Normalising the result of a normalisation leaves the metadata as the
    first normalisation left it, provided no date field held a non-empty
    string of whitespace only. *)
Theorem preprocess_document_idempotent st doc d m md :
  heap st !! doc = Some d ->
  d !! "metadata" = Some (VRef m) ->
  heap st !! m = Some md ->
  (forall f s, f ∈ date_fields -> md !! f = Some (VStr s) ->
               blank (PyStr.of_string s) -> s = "") ->
  exists p st1 p2 st2,
    preprocess_document (VRef doc) st = (Ok (VRef p), st1) /\
    preprocess_document (VRef p) st1 = (Ok (VRef p2), st2) /\
    heap st2 !! m = heap st1 !! m.
Proof.
  intros Hdoc Hmeta Hm Hblank.
  destruct (preprocess_document_again st doc d m md Hdoc Hmeta Hm)
    as (p & st1 & p2 & st2 & H1 & H2 & Hm1 & Hm2).
  exists p, st1, p2, st2. split_and!; [done..|].
  by rewrite Hm1, Hm2, normalize_metadata_idem.
Qed.

Lemma preprocess_document_idempotent_witness :
  exists p st1 p2 st2,
    preprocess_document (VRef 1%positive)
      (st0 (record_with {[ "Tanggal Berlaku" := VStr " 17 Agustus 1945" ]}))
      = (Ok (VRef p), st1) /\
    preprocess_document (VRef p) st1 = (Ok (VRef p2), st2) /\
    heap st2 !! 2%positive = heap st1 !! 2%positive.
Proof.
  apply (preprocess_document_idempotent
           (st0 (record_with {[ "Tanggal Berlaku" := VStr " 17 Agustus 1945" ]}))
           1%positive {[ "metadata" := VRef 2%positive ]} 2%positive
           {[ "Tanggal Berlaku" := VStr " 17 Agustus 1945" ]}); [reflexivity..|].
  intros f s Hf Hs Hb.
  apply date_fields_elem in Hf as [-> | [-> | ->]]; try discriminate.
  injection Hs as <-. vm_compute in Hb. inversion Hb as [|? ? Hc1 Hb1].
  inversion Hb1 as [|? ? Hc2 Hb2]. discriminate.
Defined.

(** X9. A date field that holds a non-empty string of whitespace only is
    not removed: it is left holding the empty string (the test of line 85
    comes before [strip]).  Only a second normalisation removes it. *)
Theorem whitespace_date_left_empty st doc d m md f s :
  heap st !! doc = Some d ->
  d !! "metadata" = Some (VRef m) ->
  heap st !! m = Some md ->
  f ∈ date_fields ->
  md !! f = Some (VStr s) ->
  s <> "" ->
  blank (PyStr.of_string s) ->
  exists p st1 p2 st2,
    preprocess_document (VRef doc) st = (Ok (VRef p), st1) /\
    (heap st1 !! m) ≫= (fun md1 => md1 !! f) = Some (VStr "") /\
    preprocess_document (VRef p) st1 = (Ok (VRef p2), st2) /\
    (heap st2 !! m) ≫= (fun md2 => md2 !! f) = None.
Proof.
  intros Hdoc Hmeta Hm Hf Hs Hne Hb.
  destruct (preprocess_document_again st doc d m md Hdoc Hmeta Hm)
    as (p & st1 & p2 & st2 & H1 & H2 & Hm1 & Hm2).
  assert (convert_date s = "") as Hempty by by apply convert_date_empty_iff.
  assert (normalize_metadata md !! f = Some (VStr "")) as Hf1.
  { rewrite normalize_metadata_lookup, decide_True by done.
    unfold field_after. by rewrite Hs, decide_False, Hempty. }
  exists p, st1, p2, st2. split_and!; [done| |done|].
  - by rewrite Hm1.
  - rewrite Hm2. simpl. rewrite normalize_metadata_lookup, decide_True by done.
    by rewrite Hf1.
Qed.

Lemma whitespace_date_left_empty_witness :
  exists p st1,
    preprocess_document (VRef 1%positive)
      (st0 (record_with {[ "Tanggal Penetapan" := VStr "  " ]})) = (Ok (VRef p), st1) /\
    (heap st1 !! 2%positive) ≫= (fun md1 => md1 !! "Tanggal Penetapan") = Some (VStr "").
Proof.
  destruct (whitespace_date_left_empty
              (st0 (record_with {[ "Tanggal Penetapan" := VStr "  " ]}))
              1%positive {[ "metadata" := VRef 2%positive ]} 2%positive
              {[ "Tanggal Penetapan" := VStr "  " ]} "Tanggal Penetapan" "  ")
    as (p & st1 & _ & _ & Hrun & Hf & _).
  - reflexivity.
  - reflexivity.
  - reflexivity.
  - apply date_fields_elem. auto.
  - reflexivity.
  - discriminate.
  - by repeat constructor.
  - by exists p, st1.
Defined.

(** ** The bulk payload *)

Lemma console_kept_preprocess doc : preserved console_kept (preprocess_document doc).
Proof. intros st. apply stdout_preprocess_document. Qed.

(** What [preprocess_document] returns for a dict, whatever its metadata:
    a new dict that holds the entries of the record under every key but the
    date fields. *)
Lemma preprocess_document_result st doc d v st' :
  heap st !! doc = Some d ->
  preprocess_document (VRef doc) st = (Ok v, st') ->
  exists p d',
    v = VRef p /\ heap st !! p = None /\ heap st' !! p = Some d' /\
    forall key, key ∉ date_fields -> d' !! key = d !! key.
Proof.
  intros Hdoc Hrun.
  assert (heap st !! fresh (dom (heap st)) = None) as Hfresh.
  { apply not_elem_of_dom, is_fresh. }
  unfold preprocess_document, bind at 1, py_copy in Hrun. rewrite Hdoc in Hrun.
  set (p := fresh (dom (heap st))) in *.
  set (st1 := set_heap (<[p := d]> (heap st)) st) in *.
  unfold bind at 1, py_contains in Hrun. cbn [st1 heap set_heap] in Hrun.
  rewrite lookup_insert_eq in Hrun. fold st1 in Hrun.
  assert (preserved heap_kept
            (if bool_decide (is_Some (d !! "metadata"))
             then for_each date_fields (process_date_field (VRef p))
             else ret ())) as Hkept.
  { destruct (bool_decide _); [|apply preserved_ret, heap_kept_refl].
    apply preserved_for_each; [apply heap_kept_refl|apply heap_kept_trans|].
    intros f Hf. by apply heap_kept_process_date_field. }
  specialize (Hkept st1). unfold exec, bind in *.
  destruct ((if bool_decide (is_Some (d !! "metadata"))
             then for_each date_fields (process_date_field (VRef p))
             else ret ()) st1) as [[[]|e] st2]; [|done].
  injection Hrun as <- <-.
  destruct (Hkept p d) as (d' & Hd' & Hsame).
  { cbn [st1 heap set_heap]. apply lookup_insert_eq. }
  by exists p, d'.
Qed.

Section Payload.

Variable py_format : gmap loc (gmap string value) -> value -> string.
Variable dumps_action : string -> string -> string.
Variable dumps_doc : gmap loc (gmap string value) -> value -> result string.
Variable requests_post : nat -> string -> http_result.

Local Abbreviation prepare_item' := (prepare_item py_format dumps_action dumps_doc).
Local Abbreviation prepare_items' := (prepare_items py_format dumps_action dumps_doc).
Local Abbreviation prepare_bulk_data' :=
  (prepare_bulk_data py_format dumps_action dumps_doc).
Local Abbreviation loop_body' :=
  (loop_body py_format dumps_action dumps_doc requests_post).
Local Abbreviation bulk_index' :=
  (bulk_index py_format dumps_action dumps_doc requests_post).

(** X10. For a record with a metadata dict, [prepare_bulk_data]'s loop
    appends two lines: the index action for the index [peraturan_indonesia]
    whose id is built from the entries ["Bentuk Singkat"], ["Nomor"] and
    ["Tahun"] that the metadata held before the normalisation (["doc"] and
    the empty string standing in for a missing one), then the dump of the
    processed copy; if that dump raises, so does the loop. *)
Theorem prepare_item_lines bulk_data st doc d m md :
  heap st !! doc = Some d ->
  d !! "metadata" = Some (VRef m) ->
  heap st !! m = Some md ->
  let p := fresh (dom (heap st)) in
  let st1 := set_heap (<[m := normalize_metadata md]> (<[p := d]> (heap st))) st in
  prepare_item' bulk_data (VRef doc) st =
  match dumps_doc (heap st1) (VRef p) with
  | Ok line =>
      (Ok (bulk_data ++ [dumps_action index_name (doc_id_of py_format (heap st1) md); line]),
       st1)
  | Raise e => (Raise e, st1)
  end.
Proof.
  intros Hdoc Hmeta Hm p st1.
  assert (heap st !! p = None) as Hfresh by apply not_elem_of_dom, is_fresh.
  assert (heap st1 !! p = Some d) as Hp.
  { cbn [st1 heap set_heap]. rewrite lookup_insert_ne by congruence.
    apply lookup_insert_eq. }
  assert (heap st1 !! m = Some (normalize_metadata md)) as Hm1.
  { cbn [st1 heap set_heap]. apply lookup_insert_eq. }
  assert (forall key, key ∉ date_fields -> normalize_metadata md !! key = md !! key) as Hkey.
  { intros key Hk. by rewrite normalize_metadata_lookup, decide_False. }
  unfold prepare_item, bind at 1.
  rewrite (preprocess_document_dict st doc d m md Hdoc Hmeta Hm). fold p st1.
  do 3 (unfold bind at 1, py_getitem at 1; rewrite Hp, Hmeta;
        unfold bind at 1, py_get at 1; rewrite Hm1).
  unfold doc_id_of.
  rewrite !Hkey by (intros [?|[?|?]]%date_fields_elem; discriminate).
  by destruct (dumps_doc (heap st1) (VRef p)); rewrite <-?app_assoc.
Qed.




Lemma heap_kept_prepare_item bulk_data item :
  preserved heap_kept (prepare_item' bulk_data item).
Proof.
  unfold prepare_item. repeat kept_step.
  - apply heap_kept_preprocess_document.
  - intros st. unfold exec. destruct (dumps_doc _ _); apply heap_kept_refl.
Qed.

Lemma heap_kept_prepare_items bulk_data batch :
  preserved heap_kept (prepare_items' bulk_data batch).
Proof.
  revert bulk_data. induction batch as [|item batch IH]; intros bulk_data; simpl.
  - apply preserved_ret, heap_kept_refl.
  - apply preserved_bind; [apply heap_kept_trans|apply heap_kept_prepare_item|apply IH].
Qed.

Lemma heap_kept_prepare_bulk_data batch : preserved heap_kept (prepare_bulk_data' batch).
Proof.
  unfold prepare_bulk_data.
  apply preserved_bind; [apply heap_kept_trans|apply heap_kept_prepare_items|].
  intros. apply preserved_ret, heap_kept_refl.
Qed.

Lemma console_kept_refl st : console_kept st st.
Proof. done. Qed.

Lemma console_kept_trans st1 st2 st3 :
  console_kept st1 st2 -> console_kept st2 st3 -> console_kept st1 st3.
Proof. unfold console_kept. congruence. Qed.

Lemma console_kept_prepare_item bulk_data item :
  preserved console_kept (prepare_item' bulk_data item).
Proof.
  unfold prepare_item.
  apply preserved_bind; [apply console_kept_trans|apply console_kept_preprocess|intros ?].
  repeat (apply preserved_bind; [apply console_kept_trans| |intros ?]);
    try (apply preserved_py_getitem, console_kept_refl);
    try (apply preserved_py_get, console_kept_refl).
  intros st. unfold exec. destruct (dumps_doc _ _); apply console_kept_refl.
Qed.

Lemma console_kept_prepare_bulk_data batch :
  preserved console_kept (prepare_bulk_data' batch).
Proof.
  unfold prepare_bulk_data.
  apply preserved_bind; [apply console_kept_trans| |intros; apply preserved_ret, console_kept_refl].
  generalize (@nil string). induction batch as [|item batch IH]; intros bulk_data; simpl.
  - apply preserved_ret, console_kept_refl.
  - apply preserved_bind; [apply console_kept_trans|apply console_kept_prepare_item|apply IH].
Qed.

(** A record whose ["metadata"] entry is not a dict makes the loop of
    [prepare_bulk_data] raise at its turn. *)
Lemma prepare_item_bad_metadata bulk_data st l d mv :
  heap st !! l = Some d ->
  d !! "metadata" = Some mv ->
  not_a_dict mv ->
  exists e st1, prepare_item' bulk_data (VRef l) st = (Raise e, st1).
Proof.
  intros Hl Hmeta Hmv. unfold prepare_item, bind at 1.
  destruct (preprocess_document (VRef l) st) as [[v|e] st1] eqn:Hrun; [|by eexists _, _].
  destruct (preprocess_document_result st l d v st1 Hl Hrun)
    as (p & d' & -> & _ & Hp & Hsame).
  assert (d' !! "metadata" = Some mv) as Hmeta'.
  { rewrite Hsame; [done|]. intros [?|[?|?]]%date_fields_elem; discriminate. }
  unfold bind at 1, py_getitem at 1. rewrite Hp, Hmeta'.
  unfold bind at 1, py_get at 1. destruct mv; try done; by eexists _, _.
Qed.

Lemma prepare_items_bad_metadata bulk_data batch st l d mv :
  VRef l ∈ batch ->
  heap st !! l = Some d ->
  d !! "metadata" = Some mv ->
  not_a_dict mv ->
  exists e st1, prepare_items' bulk_data batch st = (Raise e, st1).
Proof.
  revert bulk_data st d.
  induction batch as [|item batch IH]; intros bulk_data st d Hin Hl Hmeta Hmv.
  { by apply elem_of_nil in Hin. }
  simpl. unfold bind at 1.
  apply elem_of_cons in Hin as [<-|Hin].
  - by destruct (prepare_item_bad_metadata bulk_data st l d mv) as (e & st1 & ->);
      [..|eexists _, _].
  - pose proof (heap_kept_prepare_item bulk_data item st) as Hkept. unfold exec in Hkept.
    destruct (prepare_item' bulk_data item st) as [[out|e] st1]; [|by eexists _, _].
    destruct (Hkept l d Hl) as (d1 & Hl1 & Hsame).
    apply (IH out st1 d1); [done..| |done].
    rewrite Hsame; [done|]. intros [?|[?|?]]%date_fields_elem; discriminate.
Qed.

(** X12. When a record of the batch has a ["metadata"] entry that is not a
    dict ([None], a number, a string, a list), [prepare_bulk_data] raises,
    the handler of the loop catches the exception, and nothing is added to
    [success_count] for any record of the batch. *)
Theorem bad_metadata_fails_batch items total_docs i st l d mv :
  VRef l ∈ slice items i (i + batch_size) ->
  heap st !! l = Some d ->
  d !! "metadata" = Some mv ->
  not_a_dict mv ->
  (exists e st1,
     prepare_bulk_data' (slice items i (i + batch_size)) st = (Raise e, st1)) /\
  (exists st',
     loop_body' items total_docs i st = (Ok tt, st') /\
     success_count st' = success_count st).
Proof.
  intros Hin Hl Hmeta Hmv.
  destruct (prepare_items_bad_metadata [] _ st l d mv Hin Hl Hmeta Hmv)
    as (e & st1 & Hraise).
  assert (prepare_bulk_data' (slice items i (i + batch_size)) st = (Raise e, st1)) as Hprep.
  { unfold prepare_bulk_data, bind. by rewrite Hraise. }
  split; [by eexists _, _|]. by eapply loop_body_prepare_raises.
Qed.

(** *** The heap under the whole loop *)

Lemma heap_same_refl st : heap_same st st.
Proof. done. Qed.

Lemma heap_same_trans st1 st2 st3 : heap_same st1 st2 -> heap_same st2 st3 -> heap_same st1 st3.
Proof. unfold heap_same. congruence. Qed.

Lemma heap_same_print l : preserved heap_same (print l).
Proof. by intros st. Qed.

Ltac same_step :=
  match goal with
  | |- preserved _ (bind _ _) => apply preserved_bind; [apply heap_same_trans| |intros ?]
  | |- preserved _ (ret _) => apply preserved_ret, heap_same_refl
  | |- preserved _ (of_result _) => apply preserved_of_result, heap_same_refl
  | |- preserved _ (print _) => apply heap_same_print
  | |- preserved _ (if ?b then _ else _) => destruct b
  end.

Lemma heap_same_report_errors idx errors : preserved heap_same (report_errors idx errors).
Proof.
  revert idx. induction errors as [|item errors IH]; intros idx; simpl.
  - apply preserved_ret, heap_same_refl.
  - apply preserved_bind; [apply heap_same_trans| |intros _; apply IH].
    unfold report_error. repeat same_step.
Qed.

Lemma heap_same_account i total_docs batch result :
  preserved heap_same (account i total_docs batch result).
Proof.
  unfold account.
  apply preserved_bind; [apply heap_same_trans|apply preserved_of_result, heap_same_refl|].
  intros errors. destruct (Json.truthy errors).
  - repeat (apply preserved_bind;
            [apply heap_same_trans
            |first [apply preserved_of_result, heap_same_refl | apply heap_same_print
                   | apply heap_same_report_errors | idtac] | intros ?]).
    + case_decide; [apply heap_same_print|apply preserved_ret, heap_same_refl].
    + apply preserved_for_each; [apply heap_same_refl|apply heap_same_trans|].
      intros [? ?] _. apply heap_same_print.
    + by intros st.
  - apply preserved_bind; [apply heap_same_trans|apply heap_same_print|]. by intros _ st.
Qed.

Lemma heap_same_kept {A} (m : M A) : preserved heap_same m -> preserved heap_kept m.
Proof. intros Hm st. apply heap_kept_same_heap, Hm. Qed.

Lemma heap_kept_loop_body items total_docs i :
  preserved heap_kept (loop_body' items total_docs i).
Proof.
  unfold loop_body.
  apply preserved_try; [apply heap_kept_trans| |].
  - apply preserved_bind; [apply heap_kept_trans|apply heap_kept_prepare_bulk_data|].
    intros data. apply heap_same_kept.
    destruct (requests_post i data) as [e|status_code text json_body].
    + apply preserved_raise, heap_same_refl.
    + case_decide.
      * apply preserved_bind;
          [apply heap_same_trans|apply preserved_of_result, heap_same_refl|].
        intros result. apply heap_same_account.
      * repeat same_step.
  - intros e. apply heap_same_kept. repeat same_step.
Qed.

(** X13. The whole loop, whatever the engine answers, removes no dict and
    changes no entry of any dict that existed before it, other than the
    entries of the three date fields: the mutation of the records' metadata
    by the normaliser is all that the load does to the collection. *)
Theorem bulk_index_frame items st :
  heap_kept st (exec (bulk_index' items) st).
Proof.
  revert st. change (preserved heap_kept (bulk_index' items)).
  unfold bulk_index.
  apply preserved_bind; [apply heap_kept_trans| |intros _].
  - intros st. by apply heap_kept_same_heap.
  - apply preserved_for_each; [apply heap_kept_refl|apply heap_kept_trans|].
    intros i _. apply heap_kept_loop_body.
Qed.

(** *** Replies that cannot be read *)

Lemma account_defect i total_docs batch json_body e st :
  reply_defect json_body = Some e ->
  (let! result := of_result json_body in account i total_docs batch result) st
  = (Raise e, st).
Proof.
  intros Hdefect. destruct json_body as [result|e0]; simpl in Hdefect.
  - unfold bind at 1. simpl. unfold account, bind at 1.
    destruct result; simplify_eq/=; try done.
    destruct (Json.truthy (default (JBool false) (Json.lookup "errors" o))); [|done].
    unfold bind at 1. simpl.
    destruct (Json.lookup "items" o); by simplify_eq/=.
  - by simplify_eq.
Qed.

(** X14. When the reply has status 200 but its body cannot be read (it is
    not JSON, it is not an object, or the [errors] flag is set and the
    ["items"] entry is missing), the exception is caught by the handler of
    the loop: the turn prints the exception and its traceback and nothing
    else, adds nothing to [success_count], and ends normally. *)
Theorem unreadable_reply_skips_batch items total_docs i st data st1 text json_body e :
  prepare_bulk_data' (slice items i (i + batch_size)) st = (Ok data, st1) ->
  requests_post i data = PostResponse 200%Z text json_body ->
  reply_defect json_body = Some e ->
  exists st',
    loop_body' items total_docs i st = (Ok tt, st') /\
    success_count st' = success_count st /\
    stdout st' = stdout st ++ [PrBatchException (i / batch_size + 1) e; PrTraceback e].
Proof.
  intros Hprep Hreply Hdefect.
  pose proof (steadily_prepare_bulk_data py_format dumps_action dumps_doc
                (slice items i (i + batch_size)) st) as [Hcount _].
  pose proof (console_kept_prepare_bulk_data (slice items i (i + batch_size)) st) as Hout.
  unfold console_kept, exec in *. rewrite Hprep in Hcount, Hout. simpl in Hcount, Hout.
  unfold loop_body, try_except, bind at 1.
  rewrite Hprep, Hreply, decide_True by done.
  rewrite (account_defect _ _ _ _ e) by done.
  eexists. split; [reflexivity|]. simpl. split; [done|].
  by rewrite Hout, <-app_assoc.
Qed.

(** *** The console of a run without failures *)

Lemma loop_body_clean_console items total_docs i st data st1 :
  prepare_bulk_data' (slice items i (i + batch_size)) st = (Ok data, st1) ->
  clean_reply (requests_post i data) ->
  stdout (exec (loop_body' items total_docs i) st) =
  stdout st ++ [PrIndexed (i / batch_size + 1) ((total_docs + batch_size - 1) / batch_size)
                  (length (slice items i (i + batch_size)))].
Proof.
  intros Hprep (text & o & Hreply & Hflag).
  pose proof (console_kept_prepare_bulk_data (slice items i (i + batch_size)) st) as Hout.
  unfold console_kept, exec in *. rewrite Hprep in Hout. simpl in Hout.
  unfold loop_body, try_except, bind. rewrite Hprep, Hreply.
  rewrite decide_True by done. simpl.
  unfold account, bind. simpl. rewrite Hflag. simpl. by rewrite Hout.
Qed.

Lemma py_range_lookup n k i :
  py_range 0 n batch_size !! k = Some i -> i = k * batch_size.
Proof.
  rewrite py_range_0. intros (j & -> & Hj)%list_lookup_fmap_Some.
  by apply lookup_seq in Hj as [-> _].
Qed.

(** X15. When every batch is submitted and gets a reply with status 200 and
    the [errors] flag unset, the loop prints one line for each batch and
    nothing else: the batches are numbered from 1 in the order of
    submission, each line carries the number of batches and the size of its
    batch. *)
Theorem clean_run_console items st :
  (forall k i,
     py_range 0 (length items) batch_size !! k = Some i ->
     exists data st1,
       prepare_bulk_data' (slice items i (i + batch_size))
         (exec (bulk_index_upto py_format dumps_action dumps_doc requests_post k items) st)
       = (Ok data, st1) /\
       clean_reply (requests_post i data)) ->
  stdout (exec (bulk_index' items) st) =
  stdout st ++
  map (fun k => PrIndexed (k + 1) (length (batches items))
                  (length (slice items (k * batch_size) (k * batch_size + batch_size))))
      (seq 0 (length (batches items))).
Proof.
  intros Hclean.
  assert (forall k, k <= length (py_range 0 (length items) batch_size) ->
            stdout (exec (bulk_index_upto py_format dumps_action dumps_doc
                            requests_post k items) st) =
            stdout st ++
            map (fun k => PrIndexed (k + 1) (length (batches items))
                   (length (slice items (k * batch_size) (k * batch_size + batch_size))))
                (seq 0 k)) as Hk.
  { induction k as [|k IH]; intros Hle.
    { rewrite exec_bulk_index_upto. simpl. by rewrite app_nil_r. }
    destruct (lookup_lt_is_Some_2 (py_range 0 (length items) batch_size) k)
      as [i Hi]; [lia|].
    destruct (Hclean k i Hi) as (data & st1 & Hprep & Hreply).
    rewrite (upto_succ _ _ _ _ _ _ _ _ Hi).
    rewrite (loop_body_clean_console _ _ _ _ _ _ Hprep Hreply), IH by lia.
    rewrite seq_S, map_app, <-app_assoc. cbn [map Nat.add].
    rewrite (py_range_lookup _ _ _ Hi), Nat.div_mul by done.
    by rewrite length_batches. }
  rewrite exec_bulk_index, Hk by done.
  unfold batches. by rewrite length_map.
Qed.

(** *** The counter never goes down *)









End Payload.


Lemma prepare_item_lines_witness :
  exists st1,
    prepare_item example_format example_dumps_action example_dumps_doc []
      (VRef 1%positive) (st0 (example_heap 1))
    = (Ok ["peraturan_indonesia/PP__2001"; "{}"], st1).
Proof.
  eexists.
  rewrite (prepare_item_lines example_format example_dumps_action example_dumps_doc []
             (st0 (example_heap 1)) 1%positive {[ "metadata" := VRef 2%positive ]}
             2%positive {[ "Bentuk Singkat" := VStr "PP"; "Tahun" := VStr "2001" ]})
    by reflexivity.
  reflexivity.
Defined.

Lemma bad_metadata_fails_batch_witness :
  exists st',
    loop_body example_format example_dumps_action example_dumps_doc
      (engine clean_response)
      (example_items 1 ++ [VRef 9%positive]) 2 0
      (st0 (<[9%positive := {[ "metadata" := VNone ]}]> (example_heap 1)))
    = (Ok tt, st') /\
    success_count st' = 0%Z.
Proof.
  edestruct (bad_metadata_fails_batch example_format example_dumps_action
               example_dumps_doc (engine clean_response)
               (example_items 1 ++ [VRef 9%positive]) 2 0
               (st0 (<[9%positive := {[ "metadata" := VNone ]}]> (example_heap 1)))
               9%positive {[ "metadata" := VNone ]} VNone)
    as [_ (st' & Hrun & Hcount)].
  - vm_compute. apply elem_of_cons. right. by left.
  - reflexivity.
  - reflexivity.
  - done.
  - exists st'. by split.
Defined.

Lemma unreadable_reply_skips_batch_witness :
  exists st',
    loop_body example_format example_dumps_action example_dumps_doc
      (engine (PostResponse 200%Z "<html>" (Raise (LibraryError "JSONDecodeError"))))
      (example_items 1) 1 0 (st0 (example_heap 1)) = (Ok tt, st') /\
    success_count st' = 0%Z /\
    stdout st' = [PrBatchException 1 (LibraryError "JSONDecodeError");
                  PrTraceback (LibraryError "JSONDecodeError")].
Proof.
  edestruct (unreadable_reply_skips_batch example_format example_dumps_action
               example_dumps_doc
               (engine (PostResponse 200%Z "<html>" (Raise (LibraryError "JSONDecodeError"))))
               (example_items 1) 1 0 (st0 (example_heap 1)))
    as (st' & Hrun & Hcount & Hout).
  - vm_compute. reflexivity.
  - reflexivity.
  - reflexivity.
  - exists st'. split_and!; done.
Defined.

Lemma clean_run_console_witness :
  stdout
    (exec (bulk_index example_format example_dumps_action example_dumps_doc
             (engine clean_response) (example_items 1)) (st0 (example_heap 1)))
  = [PrIndexed 1 1 1].
Proof.
  rewrite (clean_run_console example_format example_dumps_action example_dumps_doc
             (engine clean_response) (example_items 1) (st0 (example_heap 1))).
  - reflexivity.
  - intros [|k] i Hi; [|done]. injection Hi as <-.
    eexists _, _. split; [vm_compute; reflexivity|].
    eexists _, _. split; [reflexivity|done].
Defined.


(** ** The summary of the error types *)

Lemma count_type_total error_type error_types :
  total_count (count_type error_type error_types) = (total_count error_types + 1)%Z.
Proof.
  induction error_types as [|[k n] rest IH]; simpl; [done|].
  destruct (Json.key_eqb k error_type); simpl; lia.
Qed.

Lemma count_type_forall (P : json -> bool) error_type error_types :
  P error_type = true ->
  forallb (fun entry => P entry.1) error_types = true ->
  forallb (fun entry => P entry.1) (count_type error_type error_types) = true.
Proof.
  intros Ht. induction error_types as [|[k n] rest IH]; simpl.
  - by rewrite Ht.
  - intros [Hk Hrest]%andb_true_iff.
    destruct (Json.key_eqb k error_type); simpl; rewrite Hk; simpl; [done|by apply IH].
Qed.

Lemma count_type_distinct error_type error_types :
  distinct_types error_types = true ->
  distinct_types (count_type error_type error_types) = true.
Proof.
  induction error_types as [|[k n] rest IH]; simpl; [done|].
  intros [Hk Hrest]%andb_true_iff.
  destruct (Json.key_eqb k error_type) eqn:Heq; simpl.
  - by rewrite Hk, Hrest.
  - rewrite IH by done. rewrite andb_true_r.
    apply (count_type_forall (fun x => negb (Json.key_eqb k x))); [by rewrite Heq|done].
Qed.

Lemma count_type_positive error_type error_types :
  Forall (fun entry => (1 <= entry.2)%Z) error_types ->
  Forall (fun entry => (1 <= entry.2)%Z) (count_type error_type error_types).
Proof.
  induction 1 as [|[k n] rest Hn Hrest IH]; simpl.
  - by repeat constructor.
  - destruct (Json.key_eqb k error_type); constructor; simpl in *; try done; lia.
Qed.

Lemma summarize_invariant error_items error_types types :
  summarize error_items error_types = Ok types ->
  total_count types = (total_count error_types + Z.of_nat (length error_items))%Z /\
  (distinct_types error_types = true -> distinct_types types = true) /\
  (Forall (fun entry => (1 <= entry.2)%Z) error_types ->
   Forall (fun entry => (1 <= entry.2)%Z) types).
Proof.
  revert error_types. induction error_items as [|item rest IH]; intros error_types; simpl.
  - intros [= <-]. split_and!; [lia|done..].
  - destruct (Json.get item "index" (JObj [])) as [index|]; [|done].
    destruct (Json.get index "error" (JObj [])) as [error|]; [|done].
    destruct (Json.get error "type" (JStr "unknown")) as [error_type|]; [|done].
    destruct (Json.hashable error_type); [|done].
    intros (Htotal & Hdistinct & Hpos)%IH. rewrite count_type_total in Htotal.
    split_and!; [lia| |].
    + intros. by apply Hdistinct, count_type_distinct.
    + intros. by apply Hpos, count_type_positive.
Qed.

(** X17. When the summary of lines 288-291 is built, each failure is
    counted in exactly one category: no two categories of the summary are
    equal, every count is at least 1, and the counts add up to the number
    of failures. *)
Theorem summary_counts_add_up error_items types :
  summarize error_items [] = Ok types ->
  total_count types = Z.of_nat (length error_items) /\
  distinct_types types = true /\
  Forall (fun entry => (1 <= entry.2)%Z) types.
Proof.
  intros (Htotal & Hdistinct & Hpos)%summarize_invariant.
  split_and!; [done|by apply Hdistinct|by apply Hpos].
Qed.

Lemma summary_counts_add_up_witness :
  total_count [(JStr "mapper_parsing_exception", 2%Z)] = 2%Z.
Proof.
  apply (summary_counts_add_up [failed_item; failed_item]). reflexivity.
Defined.

(** ** The handshake (lines 22-51) *)

Lemma connect_attempt_fails requests_get attempt w :
  answers (requests_get attempt) = false ->
  exists lines,
    connect_attempt requests_get attempt w =
    (false, World (console w ++ lines)
              (slept w ++ if decide (attempt < max_retries - 1) then [retry_delay] else [])
              (sent w ++ [ReqGet attempt])).
Proof.
  intros Hbad. unfold connect_attempt, answers in *.
  destruct (requests_get attempt) as [e|status_code text json_body].
  - exists [PrConnectionError e (attempt + 1)].
    destruct (decide (attempt < max_retries - 1)); unfold sleep, say, send; cbn;
      by rewrite ?app_nil_r.
  - destruct (decide (status_code = 200%Z)) as [Hs|Hs].
    + rewrite bool_decide_true in Hbad by done. simpl in Hbad.
      destruct (version_number json_body) as [|e]; [done|].
      exists [PrConnected; PrConnectionError e (attempt + 1)].
      destruct (decide (attempt < max_retries - 1)); unfold sleep, say, send; cbn;
        by rewrite <-?app_assoc, ?app_nil_r.
    + exists [PrStatusFailed status_code; PrResponse text; PrRetrying (attempt + 1)].
      destruct (decide (attempt < max_retries - 1)); unfold sleep, say, send; cbn;
        by rewrite <-?app_assoc, ?app_nil_r.
Qed.

Lemma connect_attempt_answers requests_get attempt w :
  answers (requests_get attempt) = true ->
  exists number,
    connect_attempt requests_get attempt w =
    (true, World (console w ++ [PrConnected; PrVersion number]) (slept w)
             (sent w ++ [ReqGet attempt])).
Proof.
  intros Hgood. unfold connect_attempt, answers in *.
  destruct (requests_get attempt) as [e|status_code text json_body]; [done|].
  apply andb_true_iff in Hgood as [Hs%bool_decide_eq_true Hv].
  rewrite decide_True by done.
  destruct (version_number json_body) as [number|]; [|done].
  exists number. unfold say, send. cbn. by rewrite <-app_assoc.
Qed.

Lemma connect_loop_fails requests_get attempts w :
  (forall b, b ∈ attempts -> answers (requests_get b) = false) ->
  exists lines,
    connect_loop requests_get attempts w =
    (false, World (console w ++ lines)
              (slept w ++ flat_map (fun b => if decide (b < max_retries - 1)
                                             then [retry_delay] else []) attempts)
              (sent w ++ map ReqGet attempts)).
Proof.
  revert w. induction attempts as [|a attempts IH]; intros w Hbad.
  - exists []. simpl. rewrite !app_nil_r. by destruct w.
  - destruct (connect_attempt_fails requests_get a w) as [lines1 H1]; [apply Hbad; by left|].
    simpl. rewrite H1.
    destruct (IH (World (console w ++ lines1)
                    (slept w ++ if decide (a < max_retries - 1) then [retry_delay] else [])
                    (sent w ++ [ReqGet a]))) as [lines2 H2].
    { intros b Hb. apply Hbad. by right. }
    rewrite H2. simpl. exists (lines1 ++ lines2). by rewrite <-!app_assoc.
Qed.

Lemma connect_loop_answers requests_get pre a rest w :
  (forall b, b ∈ pre -> answers (requests_get b) = false) ->
  answers (requests_get a) = true ->
  exists lines number,
    connect_loop requests_get (pre ++ a :: rest) w =
    (true, World (console w ++ lines ++ [PrConnected; PrVersion number])
             (slept w ++ flat_map (fun b => if decide (b < max_retries - 1)
                                            then [retry_delay] else []) pre)
             (sent w ++ map ReqGet (pre ++ [a]))).
Proof.
  revert w. induction pre as [|b pre IH]; intros w Hbad Hgood.
  - destruct (connect_attempt_answers requests_get a w Hgood) as [number H1].
    exists [], number. simpl. rewrite H1. by rewrite app_nil_r.
  - destruct (connect_attempt_fails requests_get b w) as [lines1 H1]; [apply Hbad; by left|].
    simpl. rewrite H1.
    destruct (IH (World (console w ++ lines1)
                    (slept w ++ if decide (b < max_retries - 1) then [retry_delay] else [])
                    (sent w ++ [ReqGet b]))) as (lines2 & number & H2); [|done|].
    { intros c Hc. apply Hbad. by right. }
    rewrite H2. simpl. exists (lines1 ++ lines2), number. by rewrite <-!app_assoc.
Qed.

Lemma waits_before attempt :
  attempt < max_retries ->
  flat_map (fun b => if decide (b < max_retries - 1) then [retry_delay] else [])
           (seq 0 attempt) = replicate attempt retry_delay.
Proof.
  intros Ha. induction attempt as [|a IH]; [done|].
  rewrite seq_S, flat_map_app, IH by lia. cbn [flat_map Nat.add].
  rewrite decide_True by (unfold max_retries in *; lia).
  rewrite app_nil_r. symmetry. apply replicate_S_end.
Qed.

(** X18. When the engine answers the probe for the first time at the
    attempt [a] (counted from 0, below 5), the handshake ends there and the
    script goes on: [a + 1] probes were sent and the script waited [a] times
    5 seconds, once after each failed probe. *)
Theorem connect_reaches requests_get a w :
  a < max_retries ->
  (forall b, b < a -> answers (requests_get b) = false) ->
  answers (requests_get a) = true ->
  exists w',
    connect requests_get w = (GoesOn, w') /\
    slept w' = slept w ++ replicate a retry_delay /\
    sent w' = sent w ++ map ReqGet (seq 0 (S a)).
Proof.
  intros Ha Hbad Hgood. unfold connect.
  assert (py_range 0 max_retries 1 = seq 0 a ++ a :: seq (S a) (max_retries - S a)) as ->.
  { change (py_range 0 max_retries 1) with (seq 0 max_retries).
    replace max_retries with (a + S (max_retries - S a)) at 1 by lia.
    by rewrite seq_app. }
  destruct (connect_loop_answers requests_get (seq 0 a) a (seq (S a) (max_retries - S a)) w)
    as (lines & number & ->); [|done|].
  { intros b Hb. apply Hbad. apply elem_of_seq in Hb. lia. }
  eexists. split; [reflexivity|]. cbn [slept sent]. split.
  - by rewrite waits_before.
  - by rewrite seq_S.
Qed.

Lemma connect_reaches_witness :
  exists w',
    connect (fun attempt => if decide (attempt = 2)
                            then PostResponse 200%Z ""
                                   (Ok (JObj [("version", JObj [("number", JStr "8.11.0")])]))
                            else PostRaises (LibraryError "ConnectionError"))
      (World [] [] []) = (GoesOn, w') /\
    slept w' = [5; 5] /\
    sent w' = [ReqGet 0; ReqGet 1; ReqGet 2].
Proof.
  apply (connect_reaches _ 2 (World [] [] [])).
  - unfold max_retries. lia.
  - intros b Hb. by rewrite decide_False by lia.
  - reflexivity.
Defined.

(** X19. When the engine answers none of the five probes (the request
    raises, the status is not 200, or the version cannot be read in the
    body), the script ends with exit code 1 after five probes and four waits
    of 5 seconds: it does not wait after the last probe. *)
Theorem connect_gives_up requests_get w :
  (forall a, a < max_retries -> answers (requests_get a) = false) ->
  exists w' lines,
    connect requests_get w = (Exits 1, w') /\
    console w' = console w ++ lines ++ [PrGiveUp; PrGiveUpDocker; PrGiveUpEnv] /\
    slept w' = slept w ++ replicate 4 retry_delay /\
    sent w' = sent w ++ map ReqGet (seq 0 max_retries).
Proof.
  intros Hbad. unfold connect.
  change (py_range 0 max_retries 1) with (seq 0 max_retries).
  destruct (connect_loop_fails requests_get (seq 0 max_retries) w) as [lines ->].
  { intros b Hb. apply Hbad. apply elem_of_seq in Hb. lia. }
  eexists _, lines. split; [reflexivity|]. simpl. by rewrite <-!app_assoc.
Qed.

Lemma connect_gives_up_witness :
  exists w' lines,
    connect (fun _ => PostResponse 503%Z "unavailable" (Raise (LibraryError "JSONDecodeError")))
      (World [] [] []) = (Exits 1, w') /\
    console w' = [] ++ lines ++ [PrGiveUp; PrGiveUpDocker; PrGiveUpEnv] /\
    slept w' = [] ++ replicate 4 retry_delay /\
    sent w' = [] ++ map ReqGet (seq 0 max_retries).
Proof.
  apply (connect_gives_up _ (World [] [] [])). intros a Ha. reflexivity.
Defined.

(** ** Provisioning (lines 177-214) *)

(** X20. The provisioning goes on to the load exactly when the index is out
    of the way and its creation is answered with status 200; in every other
    case the script ends with exit code 1.  The deletion is requested
    exactly when the check finds the index, and the creation is requested
    exactly when the index is out of the way: never after a failed check or
    a failed deletion. *)
Theorem provision_outcome head_reply delete_reply put_reply w :
  let cleared := index_cleared head_reply delete_reply in
  let created := index_created put_reply in
  exists w',
    provision head_reply delete_reply put_reply w =
      (if cleared && created then GoesOn else Exits 1, w') /\
    sent w' = sent w ++ [ReqHead]
                ++ (if index_found head_reply then [ReqDelete] else [])
                ++ (if cleared then [ReqPut] else []) /\
    (cleared && created = true -> last (console w') = Some PrCreated).
Proof.
  unfold provision, drop_index, create_index, index_cleared, index_created, index_found.
  destruct head_reply as [e|status_code text body];
    [|destruct (decide (status_code = 200%Z)) as [Hs|Hs];
      [rewrite bool_decide_true by done;
       destruct delete_reply as [e|delete_status dtext dbody];
       [|destruct (decide (delete_status = 200%Z \/ delete_status = 404%Z)) as [Hd|Hd];
         [rewrite bool_decide_true by done|rewrite bool_decide_false by done]]
      |rewrite bool_decide_false by done]];
    try (destruct put_reply as [e'|put_status ptext pbody];
         [|destruct (decide (put_status = 200%Z)) as [Hp|Hp];
           [rewrite bool_decide_true by done|rewrite bool_decide_false by done]]);
    (eexists; split; [reflexivity|]; cbn; split; [by rewrite <-?app_assoc|];
     try done; intros _; by rewrite last_snoc).
Qed.

Lemma provision_outcome_witness :
  exists w',
    provision (PostResponse 200%Z "" (Raise (LibraryError "JSONDecodeError")))
      (PostResponse 500%Z "cannot delete" (Raise (LibraryError "JSONDecodeError")))
      (PostResponse 200%Z "" (Ok (JObj []))) (World [] [] []) = (Exits 1, w') /\
    sent w' = [ReqHead; ReqDelete].
Proof.
  destruct (provision_outcome
              (PostResponse 200%Z "" (Raise (LibraryError "JSONDecodeError")))
              (PostResponse 500%Z "cannot delete" (Raise (LibraryError "JSONDecodeError")))
              (PostResponse 200%Z "" (Ok (JObj []))) (World [] [] []))
    as (w' & Hrun & Hsent & _).
  by exists w'.
Defined.

(** ** The test search (lines 317-347) *)

Lemma list_hits_lines hits w :
  exists lines,
    Forall2 (fun hit line => hit_line hit = Ok line) (take (length lines) hits) lines /\
    console (list_hits hits w).2 = console w ++ lines /\
    slept (list_hits hits w).2 = slept w /\
    sent (list_hits hits w).2 = sent w /\
    match (list_hits hits w).1 with
    | Ok _ => length lines = length hits
    | Raise e => exists hit, hits !! length lines = Some hit /\ hit_line hit = Raise e
    end.
Proof.
  revert w. induction hits as [|hit hits IH]; intros w.
  - exists []. simpl. rewrite app_nil_r. by split_and!.
  - simpl. destruct (hit_line hit) as [line|e] eqn:Hline.
    + destruct (IH (say line w)) as (lines & Hall & Hconsole & Hslept & Hsent & Hend).
      exists (line :: lines). simpl. split_and!; [by constructor| |done..|].
      * rewrite Hconsole. simpl. by rewrite <-app_assoc.
      * destruct (list_hits hits (say line w)).1; [lia|done].
    + exists []. simpl. rewrite app_nil_r. split_and!; [constructor|done..|by exists hit].
Qed.

(** X21. On a reply with status 200 whose body gives the total and the
    list of hits, the test search sends its one request, waits for nothing,
    and prints the total and then one line for each hit, in order, with the
    title (["No title"] when the metadata has no ["Judul"]) and the score, up
    to the first hit in which one of these cannot be read; at that hit it
    prints the exception and stops. *)
Theorem test_search_report text results hits total value found elements w :
  Json.getitem results "hits" = Ok hits ->
  Json.getitem hits "total" = Ok total ->
  Json.getitem total "value" = Ok value ->
  Json.getitem hits "hits" = Ok found ->
  Json.iter found = Ok elements ->
  let w' := test_search (PostResponse 200%Z text (Ok results)) w in
  exists lines,
    Forall2 (fun hit line => hit_line hit = Ok line) (take (length lines) elements) lines /\
    sent w' = sent w ++ [ReqSearch] /\
    slept w' = slept w /\
    ((length lines = length elements /\
      console w' = console w ++ [PrSearching; PrFound value] ++ lines) \/
     (exists hit e,
        elements !! length lines = Some hit /\ hit_line hit = Raise e /\
        console w' = console w ++ [PrSearching; PrFound value] ++ lines ++ [PrSearchError e])).
Proof.
  intros Hhits Htotal Hvalue Hfound Helements w'.
  unfold w', test_search, report_hits. rewrite decide_True by done.
  rewrite Hhits, Htotal, Hvalue, Hfound, Helements.
  set (w1 := say (PrFound value) (send ReqSearch (say PrSearching w))).
  destruct (list_hits_lines elements w1) as (lines & Hall & Hconsole & Hslept & Hsent & Hend).
  exists lines. destruct (list_hits elements w1) as [[[]|e] w2]; simpl in *.
  - split_and!; [done..|]. left. split; [done|].
    rewrite Hconsole. cbn. by rewrite <-!app_assoc.
  - destruct Hend as (hit & Hhit & He). split_and!; [done..|]. right.
    exists hit, e. split_and!; [done..|]. rewrite Hconsole. cbn. by rewrite <-!app_assoc.
Qed.

Lemma test_search_report_witness :
  console
    (test_search
       (PostResponse 200%Z ""
          (Ok (JObj [("hits",
                      JObj [("total", JObj [("value", JInt 1)]);
                            ("hits",
                             JArr [JObj [("_source", JObj [("metadata", JObj [])]);
                                         ("_score", JInt 3)]])])])))
       (World [] [] []))
  = [PrSearching; PrFound (JInt 1); PrHit (JStr "No title") (JInt 3)].
Proof.
  destruct (test_search_report ""
               (JObj [("hits",
                       JObj [("total", JObj [("value", JInt 1)]);
                             ("hits",
                              JArr [JObj [("_source", JObj [("metadata", JObj [])]);
                                          ("_score", JInt 3)]])])])
               _ _ _ _ _ (World [] [] []) eq_refl eq_refl eq_refl eq_refl eq_refl)
    as (lines & _ & _ & _ & _).
  reflexivity.
Defined.

(** ** Partial failures (lines 253-297) *)


